(** * smartie: the command line interface (smartie/cli.py)

    A shallow embedding of [print_structure] and of the three click commands
    [enumerate], [details] and [debug], together with the properties the
    design document states about them.

    Python integers are [Z]; the bytes of a [bytearray] are [Byte.byte];
    strings are [string]; the rich renderables ([Table], [Group], text) are an
    inductive type; the dispatch dictionaries of [debug_command] are [gmap]s
    keyed by strings; a dictionary whose iteration order matters is an
    association list. *)

From Stdlib Require Import ZArith NArith Lia String Ascii Decimal Hexadecimal.
From Stdlib.Strings Require Import Byte.
From Stdlib Require DecimalString DecimalN HexadecimalN.
From stdpp Require Import base option list strings gmap.

Local Open Scope Z_scope.

(** ** Python's integer formatting *)

Module PyFormat.

(** The digits of [format(n, "X")] for a non-negative [n], read off the
    hexadecimal numeral of [n]. *)
Fixpoint upper_hex_digits (d : Hexadecimal.uint) : string :=
  match d with
  | Hexadecimal.Nil => EmptyString
  | Hexadecimal.D0 d => String "0" (upper_hex_digits d)
  | Hexadecimal.D1 d => String "1" (upper_hex_digits d)
  | Hexadecimal.D2 d => String "2" (upper_hex_digits d)
  | Hexadecimal.D3 d => String "3" (upper_hex_digits d)
  | Hexadecimal.D4 d => String "4" (upper_hex_digits d)
  | Hexadecimal.D5 d => String "5" (upper_hex_digits d)
  | Hexadecimal.D6 d => String "6" (upper_hex_digits d)
  | Hexadecimal.D7 d => String "7" (upper_hex_digits d)
  | Hexadecimal.D8 d => String "8" (upper_hex_digits d)
  | Hexadecimal.D9 d => String "9" (upper_hex_digits d)
  | Hexadecimal.Da d => String "A" (upper_hex_digits d)
  | Hexadecimal.Db d => String "B" (upper_hex_digits d)
  | Hexadecimal.Dc d => String "C" (upper_hex_digits d)
  | Hexadecimal.Dd d => String "D" (upper_hex_digits d)
  | Hexadecimal.De d => String "E" (upper_hex_digits d)
  | Hexadecimal.Df d => String "F" (upper_hex_digits d)
  end.

Definition hex_of_N (n : N) : string := upper_hex_digits (N.to_hex_uint n).

Definition dec_of_N (n : N) : string :=
  DecimalString.NilEmpty.string_of_uint (N.to_uint n).

(** ["0" * k] *)
Fixpoint zeros (k : nat) : string :=
  match k with
  | O => EmptyString
  | S k' => String "0" (zeros k')
  end.

(** [s.zfill(width)] for a string of digits. *)
Definition zfill (width : nat) (s : string) : string :=
  zeros (width - String.length s) +:+ s.

(** [format(z, "0<width><type>")]: the sign comes first and counts towards
    the width, the zeros pad the digits. *)
Definition format_zero_padded (digits : N -> string) (width : nat) (z : Z)
  : string :=
  if z <? 0 then "-" +:+ zfill (width - 1) (digits (Z.abs_N z))
  else zfill width (digits (Z.abs_N z)).

(** [f"{z:02X}"] *)
Definition format_02X : Z -> string := format_zero_padded hex_of_N 2.
(** [f"{z:03X}"] *)
Definition format_03X : Z -> string := format_zero_padded hex_of_N 3.
(** [f"{z:03}"] *)
Definition format_03 : Z -> string := format_zero_padded dec_of_N 3.
(** [str(z)] and [f"{z}"] *)
Definition str : Z -> string := format_zero_padded dec_of_N 0.

(** Reading a string of upper-case hexadecimal digits back. *)
Definition upper_hex_value (c : ascii) : option N :=
  let n := N_of_ascii c in
  if decide (48 <= n <= 57)%N then Some (n - 48)%N
  else if decide (65 <= n <= 70)%N then Some (n - 55)%N
  else None.

Definition is_upper_hex (c : ascii) : bool :=
  bool_decide (is_Some (upper_hex_value c)).

Fixpoint parse_upper_hex_from (acc : N) (s : string) : option N :=
  match s with
  | EmptyString => Some acc
  | String c s' =>
      match upper_hex_value c with
      | Some v => parse_upper_hex_from (16 * acc + v)%N s'
      | None => None
      end
  end.

Definition parse_upper_hex (s : string) : option N :=
  match s with
  | EmptyString => None
  | _ => parse_upper_hex_from 0 s
  end.

Definition is_dec_digit (c : ascii) : bool :=
  bool_decide (48 <= N_of_ascii c <= 57)%N.

Fixpoint parse_dec_from (acc : N) (s : string) : option N :=
  match s with
  | EmptyString => Some acc
  | String c s' =>
      if is_dec_digit c
      then parse_dec_from (10 * acc + (N_of_ascii c - 48))%N s'
      else None
  end.

Definition parse_dec (s : string) : option N :=
  match s with
  | EmptyString => None
  | _ => parse_dec_from 0 s
  end.

Fixpoint string_forallb (p : ascii -> bool) (s : string) : bool :=
  match s with
  | EmptyString => true
  | String c s' => p c && string_forallb p s'
  end.

End PyFormat.

(** ** rich renderables *)

Inductive Box := HEAVY_HEAD | SIMPLE.

Record Column := mkColumn {
  header : string;
  style : option string;
  justify : string;
  no_wrap : bool
}.

Record TableOf (R : Type) := mkTable {
  show_header : bool;
  show_lines : bool;
  box : Box;
  title : option string;
  title_style : option string;
  columns : list Column;
  rows : list (list R)
}.
Arguments mkTable {R}.
Arguments show_header {R}.
Arguments show_lines {R}.
Arguments box {R}.
Arguments title {R}.
Arguments title_style {R}.
Arguments columns {R}.
Arguments rows {R}.

(** What [console.print] and a table cell accept: a string, a [Table] or a
    [Group] of renderables. *)
#[warnings="-register-all"]
Inductive Renderable :=
| Text (s : string)
| OfTable (t : TableOf Renderable)
| Group (renderables : list Renderable).

Abbreviation Table := (TableOf Renderable).

(** [Table(...)] with rich's defaults for the keywords a call leaves out. *)
Definition new_table (show_header show_lines : bool) (box : Box)
    (title title_style : option string) : Table :=
  mkTable show_header show_lines box title title_style [] [].

(** [t.add_column(header, style=..., justify=..., no_wrap=...)] *)
Definition add_column (t : Table) (c : Column) : Table :=
  mkTable (show_header t) (show_lines t) (box t) (title t) (title_style t)
          (columns t ++ [c]) (rows t).

(** [t.add_row(cell, ...)] *)
Definition add_row (t : Table) (cells : list Renderable) : Table :=
  mkTable (show_header t) (show_lines t) (box t) (title t) (title_style t)
          (columns t) (rows t ++ [cells]).

(** ** Exceptions *)

(** The exceptions that leave the functions of cli.py: the one
    [debug_command] raises itself, what the device layer raises, and what
    Python's [int] raises on an object that has no integer value
    ([ValueError] on bytes or a string that is no numeral and on a NaN,
    [TypeError] on [None] and on an object without [__int__],
    [OverflowError] on an infinite float). *)
Inductive exn :=
| NotImplementedError (msg : string)
| DeviceError (msg : string)
| ValueError
| TypeError
| OverflowError.

(** ** ctypes structures *)

(** A ctypes type, as far as [print_structure] looks at it: [ctypes.sizeof]. *)
Record ctype := mkCtype {
  ctype_name : string;
  sizeof : Z
}.

(** An entry of [_fields_]: [(name, type)] or [(name, type, bitcount)]. *)
Inductive field :=
| Field2 (name : string) (type_ : ctype)
| Field3 (name : string) (type_ : ctype) (bitcount : Z).

(** What [getattr(structure, name)] returns, by the classes [print_structure]
    tests it against: a [ctypes.Array] instance (with the bytes
    [bytearray(value)] yields), a [c_uint128] (with [int(value)]), a nested
    [ctypes.Structure], the Python integer of a simple integer field (signed
    for a signed type), or any other object, given by what [int(value)] does
    on it: the bytes of a [c_char] or [c_char * n] field (an integer when
    they spell a decimal numeral, [ValueError] otherwise), the float of a
    [c_float] or [c_double] field, the [None] of a NULL [c_void_p] or
    [c_char_p] ([TypeError]), a pointer or a union ([TypeError]). *)
Inductive value :=
| VArray (elems : list byte)
| VUint128 (n : Z)
| VStructure (s : Structure)
| VInt (n : Z)
| VOther (int_ : exn + Z)
with Structure :=
| mkStructure (cls : string) (_fields_ : list field)
              (getattr : string -> value) (raw : list byte).

Definition cls_of (s : Structure) : string :=
  match s with mkStructure c _ _ _ => c end.
Definition fields_of (s : Structure) : list field :=
  match s with mkStructure _ fs _ _ => fs end.
Definition getattr (s : Structure) (name : string) : value :=
  match s with mkStructure _ _ g _ => g name end.
(** [bytes(structure)] *)
Definition bytes_of (s : Structure) : list byte :=
  match s with mkStructure _ _ _ raw => raw end.

(** Modelled from the spec: [grouper_it] of smartie.util is not among the
    sources.  [print_structure] uses it to cut the bytes of an array into the
    rows of the dump: consecutive chunks of [n] elements, the last one holding
    what is left, and no chunk when nothing is left. *)
Fixpoint grouper_fuel {A} (fuel : nat) (n : nat) (l : list A) : list (list A) :=
  match fuel with
  | O => []
  | S fuel' =>
      match take n l with
      | [] => []
      | chunk => chunk :: grouper_fuel fuel' n (drop n l)
      end
  end.

Definition grouper_it {A} (n : nat) (l : list A) : list (list A) :=
  grouper_fuel (length l) n l.

Definition int_of_byte (b : byte) : Z := Z.of_N (Byte.to_N b).

(** [" ".join(parts)] and ["".join(chars)] *)
Definition join (sep : string) (parts : list string) : string :=
  String.concat sep parts.

Definition string_of_chars (cs : list ascii) : string :=
  string_of_list_ascii cs.

Import PyFormat.

(** [print_structure(structure, indent=indent)]: the [Group] that the
    [@group()] decorator builds from the one table the generator yields, or
    the exception that leaves the loop when [int(value)] raises: the
    decorator runs the generator to its end inside the call, so the call
    itself raises and nothing is yielded. *)
Fixpoint print_structure (structure : Structure) (indent : Z)
  : exn + Renderable :=
  let t := new_table true true HEAVY_HEAD None None in
  let t := add_column t (mkColumn "Offset" (Some "white italic") "left" false) in
  let t := add_column t (mkColumn "Name" (Some "magenta") "left" false) in
  let t := add_column t (mkColumn "Value" None "left" false) in
  match structure with
  | mkStructure _ fields attrs _ =>
      match
        fold_left
          (fun state field =>
             match state with
             | inl e => inl e
             | inr (t, offset) =>
                 let '(name, type_, bitcount) :=
                   match field with
                   | Field3 name type_ bitcount => (name, type_, bitcount)
                   | Field2 name type_ => (name, type_, sizeof type_ * 8)
                   end in
                 let value := attrs name in
                 let label :=
                   Text ("[" +:+ format_03 offset +:+ ":"
                             +:+ format_03 (offset + bitcount) +:+ "]") in
                 let t :=
                   match value with
                   | VArray elems =>
                       let array_table :=
                         new_table false false HEAVY_HEAD None None in
                       let array_table :=
                         add_column array_table
                           (mkColumn "Hex" (Some "green") "left" true) in
                       let array_table :=
                         add_column array_table
                           (mkColumn "ASCII" (Some "white") "left" true) in
                       let array_table :=
                         fold_left
                           (fun array_table chunk =>
                              add_row array_table
                                [ Text (join " "
                                          (map (fun b =>
                                                  format_02X (int_of_byte b))
                                               chunk));
                                  Text (string_of_chars
                                          (map (fun b =>
                                                  if bool_decide
                                                       (32 <= int_of_byte b
                                                        <= 126)
                                                  then ascii_of_byte b
                                                  else "."%char)
                                               chunk)) ])
                           (grouper_it 20 elems) array_table in
                       inr (add_row t [label; Text name; OfTable array_table])
                   | VUint128 n =>
                       inr (add_row t
                              [label; Text name; Text ("0x" +:+ format_03X n)])
                   | VStructure s =>
                       match print_structure s (indent + 2) with
                       | inl e => inl e
                       | inr nested =>
                           inr (add_row t [label; Text name; Group [nested]])
                       end
                   | VInt n =>
                       inr (add_row t
                              [label; Text name; Text ("0x" +:+ format_03X n)])
                   | VOther int_value =>
                       match int_value with
                       | inl e => inl e
                       | inr n =>
                           inr (add_row t
                                  [label; Text name;
                                   Text ("0x" +:+ format_03X n)])
                       end
                   end in
                 match t with
                 | inl e => inl e
                 | inr t => inr (t, offset + bitcount)
                 end
             end)
          fields (inr (t, 0))
      with
      | inl e => inl e
      | inr (t, _) => inr (Group [OfTable t])
      end
  end.

(** ** What [print_structure] shows, row by row *)

Definition field_name (f : field) : string :=
  match f with
  | Field2 name _ => name
  | Field3 name _ _ => name
  end.

Definition field_bitcount (f : field) : Z :=
  match f with
  | Field2 _ type_ => sizeof type_ * 8
  | Field3 _ _ bitcount => bitcount
  end.

(** The text of the "Offset" column: [f"[{lo:03}:{hi:03}]"]. *)
Definition range_label (lo hi : Z) : string :=
  "[" +:+ format_03 lo +:+ ":" +:+ format_03 hi +:+ "]".

Definition hex_cell (chunk : list byte) : string :=
  join " " (map (fun b => format_02X (int_of_byte b)) chunk).

Definition ascii_char (b : byte) : ascii :=
  if bool_decide (32 <= int_of_byte b <= 126) then ascii_of_byte b else "."%char.

Definition ascii_cell (chunk : list byte) : string :=
  string_of_chars (map ascii_char chunk).

Definition dump_row (chunk : list byte) : list Renderable :=
  [Text (hex_cell chunk); Text (ascii_cell chunk)].

Definition dump_columns : list Column :=
  [mkColumn "Hex" (Some "green") "left" true;
   mkColumn "ASCII" (Some "white") "left" true].

Definition array_dump (elems : list byte) : Table :=
  mkTable false false HEAVY_HEAD None None dump_columns
          (map dump_row (grouper_it 20 elems)).

(** The "Value" cell of a field, or the exception it raises. *)
Definition value_cell (v : value) (indent : Z) : exn + Renderable :=
  match v with
  | VArray elems => inr (OfTable (array_dump elems))
  | VUint128 n => inr (Text ("0x" +:+ format_03X n))
  | VStructure s =>
      match print_structure s (indent + 2) with
      | inl e => inl e
      | inr nested => inr (Group [nested])
      end
  | VInt n => inr (Text ("0x" +:+ format_03X n))
  | VOther (inl e) => inl e
  | VOther (inr n) => inr (Text ("0x" +:+ format_03X n))
  end.

Definition field_row (offset : Z) (f : field) (cell : Renderable)
  : list Renderable :=
  [Text (range_label offset (offset + field_bitcount f));
   Text (field_name f);
   cell].

(** The rows of the fields [fs] when the first of them starts at [offset],
    or the exception of the first field whose cell raises. *)
Fixpoint field_rows (attrs : string -> value) (indent offset : Z)
    (fs : list field) : exn + list (list Renderable) :=
  match fs with
  | [] => inr []
  | f :: fs' =>
      match value_cell (attrs (field_name f)) indent with
      | inl e => inl e
      | inr cell =>
          match field_rows attrs indent (offset + field_bitcount f) fs' with
          | inl e => inl e
          | inr rows => inr (field_row offset f cell :: rows)
          end
      end
  end.

Definition structure_columns : list Column :=
  [mkColumn "Offset" (Some "white italic") "left" false;
   mkColumn "Name" (Some "magenta") "left" false;
   mkColumn "Value" None "left" false].

(** The group [print_structure] returns for the rows [rows]. *)
Definition structure_table (rows : list (list Renderable)) : Renderable :=
  Group [OfTable (mkTable true true HEAVY_HEAD None None structure_columns
                          rows)].

(** The tables a [Group] holds at its top level. *)
Definition tables_of (r : Renderable) : list Table :=
  match r with
  | Group rs =>
      omap (fun r' => match r' with OfTable t => Some t | _ => None end) rs
  | _ => []
  end.

(** The rows of everything [print_structure] yields. *)
Definition printed_rows (r : Renderable) : list (list Renderable) :=
  concat (map rows (tables_of r)).

(** The bit offset at which field number [i] is displayed. *)
Definition offset_of (fs : list field) (i : nat) : Z :=
  foldr Z.add 0 (map field_bitcount (take i fs)).

(** Every value of the structure that is neither an array, a [c_uint128] nor
    a structure has an integer value ([int(value)] returns), and so in every
    nested structure, at every depth. *)
Fixpoint printable (s : Structure) : bool :=
  match s with
  | mkStructure _ fs attrs _ =>
      forallb
        (fun f =>
           match attrs (field_name f) with
           | VStructure s' => printable s'
           | VOther (inl _) => false
           | _ => true
           end)
        fs
  end.

(** ** Sample structures *)

Module Samples.

Definition c_uint8 : ctype := mkCtype "c_uint8" 1.
Definition c_uint16 : ctype := mkCtype "c_uint16" 2.
Definition c_ubyte_Array_23 : ctype := mkCtype "c_ubyte_Array_23" 23.
Definition c_uint128_t : ctype := mkCtype "c_uint128" 16.
Definition Flags_t : ctype := mkCtype "Flags" 1.

Definition flags : Structure :=
  mkStructure "Flags"
    [Field3 "low" c_uint8 3; Field3 "high" c_uint8 5]
    (fun name => if String.eqb name "low" then VInt 5 else VInt 17)
    [xbd].

Definition vendor_bytes : list byte :=
  ["S"; "M"; "A"; "R"; "T"; "i"; "e"; " "; x00; x7e; x7f; xff; "."; "0"; "1";
   "2"; "3"; "4"; "5"; "6"; "7"; "8"; "9"]%byte.

Definition page : Structure :=
  mkStructure "Page"
    [Field2 "revision" c_uint16;
     Field2 "vendor" c_ubyte_Array_23;
     Field2 "flags" Flags_t;
     Field2 "units_read" c_uint128_t]
    (fun name =>
       if String.eqb name "revision" then VInt 4660
       else if String.eqb name "vendor" then VArray vendor_bytes
       else if String.eqb name "flags" then VStructure flags
       else VUint128 (2 ^ 100))
    [].

Definition c_int8 : ctype := mkCtype "c_byte" 1.
Definition c_char_Array_4 : ctype := mkCtype "c_char_Array_4" 4.
Definition c_void_p : ctype := mkCtype "c_void_p" 8.

(** A structure with a [c_char * 4] field that holds [b"AB"]: the attribute
    is a bytes object, no [ctypes.Array], and [int(b"AB")] raises
    [ValueError]. *)
Definition labelled : Structure :=
  mkStructure "Labelled"
    [Field2 "revision" c_uint16; Field2 "label" c_char_Array_4;
     Field2 "flags" Flags_t]
    (fun name =>
       if String.eqb name "revision" then VInt 1
       else if String.eqb name "label" then VOther (inl ValueError)
       else VStructure flags)
    [].

(** A structure with a [c_byte] field whose byte is 0xFF (the integer -1), a
    [c_char * 4] field that holds [b"12"] ([int(b"12")] is 12) and a NULL
    [c_void_p] ([None]). *)
Definition mixed : Structure :=
  mkStructure "Mixed"
    [Field2 "delta" c_int8; Field2 "code" c_char_Array_4;
     Field2 "next" c_void_p]
    (fun name =>
       if String.eqb name "delta" then VInt (-1)
       else if String.eqb name "code" then VOther (inr 12)
       else VOther (inl TypeError))
    [xff; "1"; "2"; x00; x00; x00; x00; x00; x00; x00; x00; x00; x00]%byte.

(** [mixed] without its pointer. *)
Definition signed : Structure :=
  mkStructure "Signed"
    [Field2 "delta" c_int8; Field2 "code" c_char_Array_4]
    (getattr mixed)
    [xff; "1"; "2"; x00; x00]%byte.

(** A page that holds [labelled] as a nested structure. *)
Definition outer : Structure :=
  mkStructure "Outer"
    [Field2 "revision" c_uint16; Field2 "inner" (mkCtype "Labelled" 7)]
    (fun name =>
       if String.eqb name "revision" then VInt 2 else VStructure labelled)
    [].

End Samples.

(** ** The structure codec of the design document *)

Module Codec.

Inductive FieldKind (D : Type) :=
| Scalar
| Bitfield
| NestedStructure (child : D)
| ByteArray.
Arguments Scalar {D}.
Arguments Bitfield {D}.
Arguments NestedStructure {D}.
Arguments ByteArray {D}.

Record FieldSpecOf (D : Type) := mkFieldSpec {
  name : string;
  bit_width : nat;
  kind : FieldKind D
}.
Arguments mkFieldSpec {D}.
Arguments name {D}.
Arguments bit_width {D}.
Arguments kind {D}.

(** Modelled from the spec: the structure codec is not among the sources.
    A StructureDescription is the declared total size (in bytes) and the
    ordered sequence of FieldSpecs [{name, bit_width, kind}]; a nested
    structure field carries the child description. *)
#[warnings="-register-all"]
Inductive StructureDescription :=
| Description (total_size : nat)
              (fields : list (FieldSpecOf StructureDescription)).

Abbreviation FieldSpec := (FieldSpecOf StructureDescription).

Definition total_size (d : StructureDescription) : nat :=
  match d with Description size _ => size end.
Definition fields (d : StructureDescription) : list FieldSpec :=
  match d with Description _ fs => fs end.

(** Modelled from the spec: a DecodedStructure is the description, the owned
    byte buffer and the cached field values; a field value is an unsigned
    integer (Scalar, Bitfield), a raw byte slice (ByteArray) or a decoded
    child (NestedStructure). *)
#[warnings="-register-all"]
Inductive FieldValue :=
| IntValue (n : N)
| BytesValue (bs : list byte)
| StructValue (description : StructureDescription) (buffer : list byte)
              (values : list (string * FieldValue)).

Record DecodedStructure := mkDecoded {
  description : StructureDescription;
  buffer : list byte;
  values : list (string * FieldValue)
}.

Inductive CodecError := SizeMismatch.

(** The bits of a byte, least significant first, and of a buffer in
    little-endian order: bit [o] of the buffer is bit [o mod 8] of byte
    [o / 8]. *)
Definition byte_bits (b : byte) : list bool :=
  let '(b0, (b1, (b2, (b3, (b4, (b5, (b6, b7))))))) := Byte.to_bits b in
  [b0; b1; b2; b3; b4; b5; b6; b7].

Definition bits_of_bytes (bs : list byte) : list bool :=
  concat (map byte_bits bs).

Fixpoint bytes_of_bits (bits : list bool) : list byte :=
  match bits with
  | b0 :: b1 :: b2 :: b3 :: b4 :: b5 :: b6 :: b7 :: rest =>
      Byte.of_bits (b0, (b1, (b2, (b3, (b4, (b5, (b6, b7)))))))
        :: bytes_of_bits rest
  | _ => []
  end.

(** The unsigned integer whose binary digits, least significant first, are
    [bits]. *)
Fixpoint N_of_bits (bits : list bool) : N :=
  match bits with
  | [] => 0
  | b :: bits' => (N.b2n b + 2 * N_of_bits bits')%N
  end.

(** The [w] low binary digits of [n], least significant first. *)
Fixpoint bits_of_N (w : nat) (n : N) : list bool :=
  match w with
  | O => []
  | S w' => N.odd n :: bits_of_N w' (N.div2 n)
  end.

(** Modelled from the spec: the field read.  The [w] bits that start at the
    cumulative bit offset [o] of the buffer. *)
Definition span (o w : nat) (bits : list bool) : list bool :=
  take w (drop o bits).

(** Modelled from the spec: [decode(description, bytes)].  It fails with
    SizeMismatch when the length of the buffer is not the declared total
    size; a Scalar or Bitfield is the [bit_width]-bit unsigned little-endian
    integer at the field's cumulative bit offset, a ByteArray the raw bytes
    of its span, a NestedStructure the decoding of its span by the child
    description. *)
Fixpoint decode_bits (d : StructureDescription) (bits : list bool)
  : CodecError + DecodedStructure :=
  match d with
  | Description size fs =>
      if negb (length bits =? 8 * size)%nat then inl SizeMismatch
      else
        let fix read (fs : list FieldSpec) (o : nat)
          : CodecError + list (string * FieldValue) :=
          match fs with
          | [] => inr []
          | f :: fs' =>
              let field_bits := span o (bit_width f) bits in
              let v :=
                match kind f with
                | Scalar | Bitfield => inr (IntValue (N_of_bits field_bits))
                | ByteArray => inr (BytesValue (bytes_of_bits field_bits))
                | NestedStructure child =>
                    match decode_bits child field_bits with
                    | inl e => inl e
                    | inr x =>
                        inr (StructValue (description x) (buffer x) (values x))
                    end
                end in
              match v with
              | inl e => inl e
              | inr v =>
                  match read fs' (o + bit_width f)%nat with
                  | inl e => inl e
                  | inr vs => inr ((name f, v) :: vs)
                  end
              end
          end in
        match read fs 0%nat with
        | inl e => inl e
        | inr vs => inr (mkDecoded d (bytes_of_bits bits) vs)
        end
  end.

Definition decode (d : StructureDescription) (bytes : list byte)
  : CodecError + DecodedStructure :=
  decode_bits d (bits_of_bytes bytes).

(** Modelled from the spec: [encode(DecodedStructure)] packs the cached field
    values, in the order and with the widths of the description, back into
    bytes; the bits after the last field, the padding that rounds the fields
    up to the declared total size, are those of the owned buffer. *)
Fixpoint value_bits (w : nat) (v : FieldValue) : list bool :=
  match v with
  | IntValue n => bits_of_N w n
  | BytesValue bs => bits_of_bytes bs
  | StructValue d' buffer' vs' =>
      (fix pack (fs : list FieldSpec) (vs : list (string * FieldValue))
           {struct vs} : list bool :=
         match fs, vs with
         | f :: fs', (_, v') :: vs'' =>
             value_bits (bit_width f) v' ++ pack fs' vs''
         | _, _ => []
         end) (fields d') vs'
      ++ drop (foldr Nat.add 0%nat (map bit_width (fields d')))
              (bits_of_bytes buffer')
  end.

Definition encode_bits (x : DecodedStructure) : list bool :=
  value_bits (8 * total_size (description x))
             (StructValue (description x) (buffer x) (values x)).

Definition encode (x : DecodedStructure) : list byte :=
  bytes_of_bits (encode_bits x).

(** Modelled from the spec: a description is valid when its fields, rounded
    up to the declared total size, fill it: the bit widths add up to the
    total size in bits or to less (what is left is padding, and no field
    reads past the end); integers are at most 128 bits wide, a byte array is
    a whole number of bytes, and a nested structure field is as wide as its
    child, itself valid, declares. *)
Fixpoint valid (d : StructureDescription) : bool :=
  match d with
  | Description size fs =>
      (foldr Nat.add 0%nat (map bit_width fs) <=? 8 * size)%nat
      && forallb
           (fun f =>
              match kind f with
              | Scalar | Bitfield => (bit_width f <=? 128)%nat
              | ByteArray => (bit_width f mod 8 =? 0)%nat
              | NestedStructure child =>
                  (bit_width f =? 8 * total_size child)%nat && valid child
              end)
           fs
  end.

(** A SMART attribute entry and a table of two of them with its checksum. *)
Definition attribute_entry : StructureDescription :=
  Description 12
    [mkFieldSpec "id" 8 Scalar;
     mkFieldSpec "pre_fail" 1 Bitfield;
     mkFieldSpec "online" 1 Bitfield;
     mkFieldSpec "flags" 14 Bitfield;
     mkFieldSpec "current_value" 8 Scalar;
     mkFieldSpec "worst_value" 8 Scalar;
     mkFieldSpec "raw_data" 48 ByteArray;
     mkFieldSpec "threshold" 8 Scalar].

Definition small_table : StructureDescription :=
  Description 27
    [mkFieldSpec "revision" 16 Scalar;
     mkFieldSpec "entry_0" 96 (NestedStructure attribute_entry);
     mkFieldSpec "entry_1" 96 (NestedStructure attribute_entry);
     mkFieldSpec "checksum" 8 Scalar].

Definition small_table_bytes : list byte :=
  [x10; x00;
   xc2; x33; x00; x64; x5f; x28; x00; x00; x00; x00; x00; x00;
   x05; x0f; x80; xc8; xc8; x00; x01; x02; x03; x04; x05; x8c;
   xa7]%byte.

(** Descriptions with padding: a 13-bit field in two bytes, and a page of 32
    bytes that holds a 12-bit counter, a nested padded word and one nested
    attribute entry, the rest reserved. *)
Definition padded_word : StructureDescription :=
  Description 2 [mkFieldSpec "x" 13 Bitfield].

Definition padded_page : StructureDescription :=
  Description 32
    [mkFieldSpec "counter" 12 Bitfield;
     mkFieldSpec "word" 16 (NestedStructure padded_word);
     mkFieldSpec "entry" 96 (NestedStructure attribute_entry)].

Definition padded_page_bytes : list byte :=
  [xab; xcd; xef; x9f;
   xc2; x33; x00; x64; x5f; x28; x00; x00; x00; x00; x00; x00;
   x01; x02; x03; x04; x05; x06; x07; x08; x09; x0a; x0b; x0c; x0d; x0e;
   x0f; xff]%byte.

End Codec.

(** The two inner loops of the codec, by name. *)

Module CodecLoops.
Import Codec.

Fixpoint read_fields (bits : list bool) (fs : list FieldSpec) (o : nat)
  : CodecError + list (string * FieldValue) :=
  match fs with
  | [] => inr []
  | f :: fs' =>
      let field_bits := span o (bit_width f) bits in
      let v :=
        match kind f with
        | Scalar | Bitfield => inr (IntValue (N_of_bits field_bits))
        | ByteArray => inr (BytesValue (bytes_of_bits field_bits))
        | NestedStructure child =>
            match decode_bits child field_bits with
            | inl e => inl e
            | inr x => inr (StructValue (description x) (buffer x) (values x))
            end
        end in
      match v with
      | inl e => inl e
      | inr v =>
          match read_fields bits fs' (o + bit_width f)%nat with
          | inl e => inl e
          | inr vs => inr ((name f, v) :: vs)
          end
      end
  end.

Fixpoint pack_fields (fs : list FieldSpec) (vs : list (string * FieldValue))
    {struct vs} : list bool :=
  match fs, vs with
  | f :: fs', (_, v') :: vs'' =>
      value_bits (bit_width f) v' ++ pack_fields fs' vs''
  | _, _ => []
  end.

Definition widths (fs : list FieldSpec) : nat :=
  foldr Nat.add 0%nat (map bit_width fs).

Definition field_valid (f : FieldSpec) : bool :=
  match kind f with
  | Scalar | Bitfield => (bit_width f <=? 128)%nat
  | ByteArray => (bit_width f mod 8 =? 0)%nat
  | NestedStructure child =>
      (bit_width f =? 8 * total_size child)%nat && valid child
  end.

(** [P] holds of the child of a nested structure field. *)
Definition on_children (P : StructureDescription -> Prop) (f : FieldSpec)
  : Prop :=
  match kind f with
  | NestedStructure child => P child
  | _ => True
  end.

(** What decoding a valid description yields, field by field. *)
Definition decodes_back (d : StructureDescription) : Prop :=
  forall bits,
    valid d = true ->
    length bits = (8 * total_size d)%nat ->
    exists x,
      decode_bits d bits = inr x
      /\ description x = d
      /\ buffer x = bytes_of_bits bits
      /\ pack_fields (fields d) (values x) = take (widths (fields d)) bits.

End CodecLoops.

(** ** Devices, SMART entries and what the commands do to the world *)

Module Cli.

(** The classes the commands test an opened device against. *)
Inductive DeviceClass := SCSIDevice | NVMEDevice | OtherDevice.

Record Device := mkDevice {
  path : string;
  device_class : DeviceClass
}.

#[global] Instance DeviceClass_eq_dec : EqDecision DeviceClass.
Proof. solve_decision. Defined.
#[global] Instance Device_eq_dec : EqDecision Device.
Proof. solve_decision. Defined.

(** [isinstance(device, cls)] *)
Definition isinstance (device : Device) (cls : DeviceClass) : bool :=
  bool_decide (device_class device = cls).

(** The methods of a device that send a command to it. *)
Inductive Method := inquiry | identify | smart | smart_thresholds.

#[global] Instance Method_eq_dec : EqDecision Method.
Proof. solve_decision. Defined.

Record Unit := mkUnit { unit_name : string }.

(** A value of [device.smart_table]: the attributes the details table shows. *)
Record SmartEntry := mkSmartEntry {
  entry_id : Z;
  entry_name : string;
  current_value : Z;
  worst_value : Z;
  threshold : Z;
  entry_unit : Unit
}.

(** What a command does that can be seen from outside, in order. *)
Inductive event :=
| Enter (device : Device)
| Exit (device : Device)
| GetAttr (device : Device) (attr : string)
| Call (device : Device) (method : Method)
| ConsolePrint (r : Renderable)
| StdoutWrite (bs : list byte)
| Print (s : string).

(** The rest of the package, which the commands only call: smartie.device,
    smartie.scsi, smartie.nvme and smartie.util.  What a call answers may
    depend on everything that happened before it. *)
Record Env := mkEnv {
  get_all_devices : list Device;
  get_device : string -> exn + Device;
  (** [device.__enter__()]: [None] when the handle is acquired. *)
  enter : list event -> Device -> option exn;
  model : list event -> Device -> exn + string;
  serial : list event -> Device -> exn + string;
  temperature : list event -> Device -> exn + Z;
  (** [device.smart_table]: a dict, in its iteration order. *)
  smart_table : list event -> Device -> exn + list (Z * SmartEntry);
  (** A command method of a SCSIDevice answers a tuple whose first item is
      the structure; the second is kept as its bytes. *)
  scsi_command : list event -> Device -> Method -> exn + (Structure * list byte);
  nvme_command : list event -> Device -> Method -> exn + Structure;
  embed_bytes : list byte -> string
}.

(** How a block of statements ends. *)
Inductive outcome (A : Type) :=
| Normal (a : A)
| Returned
| Raised (e : exn).
Arguments Normal {A}.
Arguments Returned {A}.
Arguments Raised {A}.

Definition M (A : Type) : Type := list event -> outcome A * list event.

Definition ret {A} (a : A) : M A := fun t => (Normal a, t).

Definition bind {A B} (m : M A) (k : A -> M B) : M B :=
  fun t =>
    match m t with
    | (Normal a, t') => k a t'
    | (Returned, t') => (Returned, t')
    | (Raised e, t') => (Raised e, t')
    end.

Declare Scope cli_scope.
Delimit Scope cli_scope with cli.
Notation "x <- m ;; k" := (bind m (fun x => k))
  (at level 100, m at next level, right associativity) : cli_scope.
Notation "m ;;; k" := (bind m (fun _ => k))
  (at level 100, right associativity) : cli_scope.
Local Open Scope cli_scope.

Definition emit (e : event) : M unit := fun t => (Normal tt, t ++ [e]).

(** [raise e] *)
Definition raise {A} (e : exn) : M A := fun t => (Raised e, t).

(** [return] *)
Definition return_ {A} : M A := fun t => (Returned, t).

(** Anything that may raise and that needs no device. *)
Definition lift {A} (r : exn + A) : M A :=
  fun t => match r with inl e => (Raised e, t) | inr a => (Normal a, t) end.

(** Reading a property of the device, or calling one of its methods: it is
    recorded, then it answers or raises. *)
Definition access {A} (ev : event) (answer : list event -> exn + A) : M A :=
  fun t =>
    match answer t with
    | inl e => (Raised e, t ++ [ev])
    | inr a => (Normal a, t ++ [ev])
    end.

(** [with device: body].  When [__enter__] raises, the body does not run and
    [__exit__] is not called; otherwise [__exit__] is called however the body
    ends, and the way the body ended stands. *)
Definition with_ {A} (env : Env) (device : Device) (body : Device -> M A)
  : M A :=
  fun t =>
    match enter env t device with
    | Some e => (Raised e, t)
    | None =>
        let '(o, t') := body device (t ++ [Enter device]) in
        (o, t' ++ [Exit device])
    end.

(** [for x in xs: acc = body(acc, x)] *)
Fixpoint for_ {A S} (xs : list A) (body : S -> A -> M S) (acc : S) : M S :=
  match xs with
  | [] => ret acc
  | x :: xs' => acc' <- body acc x ;; for_ xs' body acc'
  end.

(** A function body: [return] ends the function normally. *)
Definition def_ (body : M unit) : M unit :=
  fun t =>
    match body t with
    | (Returned, t') => (Normal tt, t')
    | r => r
    end.

Definition column (header : string) (style : option string)
    (justify : string) : Column :=
  mkColumn header style justify false.

(** ["\194\176C"]: the degree sign, in UTF-8, and a C. *)
Definition degrees_C : string :=
  String (ascii_of_nat 194) (String (ascii_of_nat 176) "C").

Section Commands.
Variable env : Env.

Definition enumerate_command : M unit :=
  def_ (
    let table := new_table true false SIMPLE None None in
    let table := add_column table (column "Path" (Some "magenta") "left") in
    let table := add_column table (column "Model" (Some "green") "left") in
    let table := add_column table (column "Serial" (Some "blue") "left") in
    let table := add_column table (column "Temperature" None "left") in
    table <- for_ (get_all_devices env)
               (fun table device =>
                  with_ env device (fun device =>
                    p <- access (GetAttr device "path")
                           (fun _ => inr (path device)) ;;
                    m <- access (GetAttr device "model")
                           (fun t => model env t device) ;;
                    s <- access (GetAttr device "serial")
                           (fun t => serial env t device) ;;
                    c <- access (GetAttr device "temperature")
                           (fun t => temperature env t device) ;;
                    ret (add_row table [Text p; Text m; Text s; Text (str c)])))
               table ;;
    emit (ConsolePrint (OfTable table))).

Definition details_command (path : string) : M unit :=
  def_ (
    let details_table := new_table false false SIMPLE None None in
    let details_table :=
      add_column details_table (column "Key" (Some "magenta") "left") in
    let details_table :=
      add_column details_table (column "Value" (Some "green") "left") in
    device <- lift (get_device env path) ;;
    details_table <-
      with_ env device (fun device =>
        m <- access (GetAttr device "model") (fun t => model env t device) ;;
        let details_table :=
          add_row details_table [Text "Model Number"; Text m] in
        s <- access (GetAttr device "serial") (fun t => serial env t device) ;;
        let details_table :=
          add_row details_table [Text "Serial Number"; Text s] in
        c <- access (GetAttr device "temperature")
               (fun t => temperature env t device) ;;
        let details_table :=
          add_row details_table
                  [Text "Temperature"; Text (str c +:+ degrees_C)] in
        let smart_table_ :=
          new_table true false SIMPLE (Some "SMART Attributes")
                    (Some "magenta") in
        let smart_table_ :=
          add_column smart_table_ (column "ID" (Some "white") "left") in
        let smart_table_ :=
          add_column smart_table_ (column "Name" (Some "magenta") "left") in
        let smart_table_ :=
          add_column smart_table_ (column "Current" (Some "green") "right") in
        let smart_table_ :=
          add_column smart_table_ (column "Worst" (Some "blue") "right") in
        let smart_table_ :=
          add_column smart_table_
                     (column "Threshold" (Some "yellow") "right") in
        let smart_table_ :=
          add_column smart_table_ (column "Unit" (Some "italic white") "left") in
        entries <- access (GetAttr device "smart_table")
                     (fun t => smart_table env t device) ;;
        smart_table_ <-
          for_ (map snd entries)
            (fun smart_table_ entry =>
               ret (add_row smart_table_
                      [Text (str (entry_id entry));
                       Text (entry_name entry);
                       Text (str (current_value entry));
                       Text (str (worst_value entry));
                       Text (str (threshold entry));
                       Text (unit_name (entry_unit entry))]))
            smart_table_ ;;
        ret (add_row details_table [Text ""; OfTable smart_table_])) ;;
    emit (ConsolePrint (OfTable details_table))).

Definition unsupported : Renderable :=
  Text "Command unknown or unsupported by this device.".

Definition debug_command (path command display : string) : M unit :=
  def_ (
    device <- lift (get_device env path) ;;
    with_ env device (fun device =>
      structure <-
        (if isinstance device SCSIDevice then
           emit (GetAttr device "inquiry") ;;;
           emit (GetAttr device "identify") ;;;
           emit (GetAttr device "smart") ;;;
           emit (GetAttr device "smart_thresholds") ;;;
           let result :=
             ({[ "inquiry" := inquiry;
                 "identify" := identify;
                 "smart" := smart;
                 "thresholds" := smart_thresholds ]} : gmap string Method)
               !! command in
           match result with
           | None => emit (ConsolePrint unsupported) ;;; return_
           | Some result =>
               r <- access (Call device result)
                      (fun t => scsi_command env t device result) ;;
               ret (fst r)
           end
         else if isinstance device NVMEDevice then
           emit (GetAttr device "identify") ;;;
           emit (GetAttr device "smart") ;;;
           let result :=
             ({[ "identify" := identify; "smart" := smart ]}
                : gmap string Method) !! command in
           match result with
           | None => emit (ConsolePrint unsupported) ;;; return_
           | Some result =>
               access (Call device result)
                 (fun t => nvme_command env t device result)
           end
         else raise (NotImplementedError "Unknown device type.")) ;;
      if String.eqb display "pretty" then
        rendered <- lift (print_structure structure 0) ;;
        emit (ConsolePrint rendered)
      else if String.eqb display "raw" then
        emit (StdoutWrite (bytes_of structure))
      else if String.eqb display "bytearray" then
        emit (Print (embed_bytes env (bytes_of structure)))
      else ret tt)).

(** The part of [debug_command] that shows the structure: what it shows,
    or the exception [print_structure] raises. *)
Definition display_structure (display : string) (structure : Structure)
  : exn + list event :=
  if String.eqb display "pretty" then
    match print_structure structure 0 with
    | inl e => inl e
    | inr rendered => inr [ConsolePrint rendered]
    end
  else if String.eqb display "raw" then inr [StdoutWrite (bytes_of structure)]
  else if String.eqb display "bytearray" then
    inr [Print (embed_bytes env (bytes_of structure))]
  else inr [].

End Commands.

(** ** Reading a trace *)

(** The commands sent, in order. *)
Definition sent (t : list event) : list (Device * Method) :=
  omap (fun e => match e with Call d m => Some (d, m) | _ => None end) t.

(** What was printed on the console, in order. *)
Definition printed (t : list event) : list Renderable :=
  omap (fun e => match e with ConsolePrint r => Some r | _ => None end) t.

(** One step of the handle discipline: [open] is the device whose handle is
    held, if any.  A handle is acquired only when none is held, a device is
    read or called only while its handle is held, and only the held handle
    is released. *)
Definition scope_step (open : option Device) (e : event)
  : option (option Device) :=
  match e with
  | Enter d =>
      match open with
      | None => Some (Some d)
      | Some _ => None
      end
  | Exit d =>
      match open with
      | Some d' => if decide (d' = d) then Some None else None
      | None => None
      end
  | GetAttr d _ | Call d _ =>
      match open with
      | Some d' => if decide (d' = d) then Some open else None
      | None => None
      end
  | ConsolePrint _ | StdoutWrite _ | Print _ => Some open
  end.

(** Runs the discipline over a trace; [None] as soon as it is broken. *)
Fixpoint scoped (open : option Device) (t : list event)
  : option (option Device) :=
  match t with
  | [] => Some open
  | e :: t' =>
      match scope_step open e with
      | Some open' => scoped open' t'
      | None => None
      end
  end.

(** No handle is held at the end of [t], and the discipline was kept. *)
Definition closed (t : list event) : Prop := scoped None t = Some None.

(** The handle of [d] is held at the end of [t], and the discipline was kept. *)
Definition held (d : Device) (t : list event) : Prop :=
  scoped None t = Some (Some d).

(** [m] keeps [P] true of the trace, however it ends. *)
Definition preserves {A} (P : list event -> Prop) (m : M A) : Prop :=
  forall t, P t -> P (snd (m t)).

(** The operations of the debug command by adapter variant. *)
Definition operations (cls : DeviceClass) : list (string * Method) :=
  match cls with
  | SCSIDevice =>
      [("inquiry", inquiry); ("identify", identify); ("smart", smart);
       ("thresholds", smart_thresholds)]%string
  | NVMEDevice => [("identify", identify); ("smart", smart)]%string
  | OtherDevice => []
  end.

Definition operation (cls : DeviceClass) (command : string) : option Method :=
  snd <$> List.find (fun '(c, _) => String.eqb c command) (operations cls).

End Cli.

(** ** A sample machine *)

Module CliSamples.
Import Cli.

Definition sda : Device := mkDevice "/dev/sda" SCSIDevice.
Definition nvme0 : Device := mkDevice "/dev/nvme0" NVMEDevice.
Definition loop0 : Device := mkDevice "/dev/loop0" OtherDevice.

Definition attributes0 : list (Z * SmartEntry) :=
  [(5, mkSmartEntry 5 "Reallocated Sectors Count" 100 100 36 (mkUnit "COUNT"));
   (194, mkSmartEntry 194 "Temperature" 64 45 0 (mkUnit "CELSIUS"));
   (9, mkSmartEntry 9 "Power-On Hours" 98 98 0 (mkUnit "HOURS"))].

Definition machine : Env :=
  {| get_all_devices := [sda; nvme0];
     get_device := fun p =>
       if String.eqb p "/dev/sda" then inr sda
       else if String.eqb p "/dev/nvme0" then inr nvme0
       else if String.eqb p "/dev/loop0" then inr loop0
       else inl (DeviceError "no such device");
     enter := fun _ _ => None;
     model := fun _ d => inr ("Model of " +:+ path d);
     serial := fun _ d => inr ("Serial of " +:+ path d);
     temperature := fun _ _ => inr 36;
     smart_table := fun _ _ => inr attributes0;
     scsi_command := fun _ _ _ => inr (Samples.page, []);
     nvme_command := fun _ _ _ => inr Samples.flags;
     embed_bytes := fun _ => "bytearray()" |}.

(** The same machine with a drive that stops answering after its model has
    been read. *)
Definition flaky : Env :=
  {| get_all_devices := [sda; nvme0];
     get_device := get_device machine;
     enter := fun _ _ => None;
     model := model machine;
     serial := fun _ _ => inl (DeviceError "I/O failure");
     temperature := temperature machine;
     smart_table := smart_table machine;
     scsi_command := fun _ _ _ => inl (DeviceError "I/O failure");
     nvme_command := fun _ _ _ => inl (DeviceError "I/O failure");
     embed_bytes := embed_bytes machine |}.

End CliSamples.

(** ** Reading a dump back, and what a command shows *)

(** The byte two upper-case hexadecimal digits stand for. *)
Definition hex_pair (c1 c2 : ascii) : option byte :=
  match upper_hex_value c1, upper_hex_value c2 with
  | Some hi, Some lo => Byte.of_N (16 * hi + lo)
  | _, _ => None
  end.

(** The bytes a text of the "Hex" column stands for: pairs of digits, one
    space between two pairs, nothing else. *)
Fixpoint read_hex_cell (s : string) : option (list byte) :=
  match s with
  | EmptyString => Some []
  | String c1 (String c2 rest) =>
      match hex_pair c1 c2 with
      | None => None
      | Some b =>
          match rest with
          | EmptyString => Some [b]
          | String sep rest' =>
              if Ascii.eqb sep " " then
                match rest' with
                | EmptyString => None
                | _ => cons b <$> read_hex_cell rest'
                end
              else None
          end
      end
  | String _ EmptyString => None
  end.

Module CliReading.
Import Cli.

(** What a trace put in front of the user: console prints, writes to
    standard output and [print] calls, in order. *)
Definition shown (t : list event) : list event :=
  List.filter
    (fun e =>
       match e with
       | ConsolePrint _ | StdoutWrite _ | Print _ => true
       | _ => false
       end) t.

(** What [enumerate_command] does with one device that answers. *)
Definition device_visit (d : Device) : list event :=
  [Enter d; GetAttr d "path"; GetAttr d "model"; GetAttr d "serial";
   GetAttr d "temperature"; Exit d].

End CliReading.

(** The [with] block of the loop of [enumerate_command], for one device. *)
Module CliBlocks.
Import Cli.
Local Open Scope cli_scope.

Definition enumerate_visit (env : Env) (table : Table) (device : Device)
  : M Table :=
  with_ env device (fun device =>
    p <- access (GetAttr device "path") (fun _ => inr (path device)) ;;
    m <- access (GetAttr device "model") (fun t => model env t device) ;;
    s <- access (GetAttr device "serial") (fun t => serial env t device) ;;
    c <- access (GetAttr device "temperature")
           (fun t => temperature env t device) ;;
    ret (add_row table [Text p; Text m; Text s; Text (str c)])).

(** The row [enumerate_command] adds for a device. *)
Definition device_row (p m s : string) (c : Z) : list Renderable :=
  [Text p; Text m; Text s; Text (str c)].

End CliBlocks.

(** The sample machine with an NVMe drive whose serial cannot be read. *)
Module CliSamples2.
Import Cli CliSamples.

Definition half : Env :=
  {| get_all_devices := [sda; nvme0; loop0];
     get_device := get_device machine;
     enter := fun _ _ => None;
     model := model machine;
     serial := fun _ d =>
       if decide (d = nvme0) then inl (DeviceError "I/O failure")
       else inr ("Serial of " +:+ path d);
     temperature := temperature machine;
     smart_table := smart_table machine;
     scsi_command := scsi_command machine;
     nvme_command := nvme_command machine;
     embed_bytes := embed_bytes machine |}.

End CliSamples2.

(** * Properties *)

Lemma array_dump_fold (chunks : list (list byte)) (t : Table) :
  fold_left
    (fun array_table chunk =>
       add_row array_table
         [ Text (join " " (map (fun b => format_02X (int_of_byte b)) chunk));
           Text (string_of_chars
                   (map (fun b =>
                           if bool_decide (32 <= int_of_byte b <= 126)
                           then ascii_of_byte b else "."%char) chunk)) ])
    chunks t
  = mkTable (show_header t) (show_lines t) (box t) (title t) (title_style t)
            (columns t) (rows t ++ map dump_row chunks).
Proof.
  revert t. induction chunks as [|chunk chunks IH]; intros t; simpl.
  - rewrite app_nil_r. by destruct t.
  - rewrite IH. simpl. by rewrite <- app_assoc.
Qed.

Lemma print_structure_unfold (s : Structure) (indent : Z) :
  print_structure s indent
  = match field_rows (getattr s) indent 0 (fields_of s) with
    | inl e => inl e
    | inr rows => inr (structure_table rows)
    end.
Proof.
  destruct s as [c fs attrs raw]. cbn [print_structure getattr fields_of].
  match goal with
  | |- context [fold_left ?f fs ?a] => set (step := f)
  end.
  assert (Hraised : forall fs' e, fold_left step fs' (inl e) = inl e).
  { induction fs' as [|f fs' IH]; intros e; [reflexivity|]. apply IH. }
  assert (Hgen : forall fs' (t : Table) offset,
             fold_left step fs' (inr (t, offset))
             = match field_rows attrs indent offset fs' with
               | inl e => inl e
               | inr rws =>
                   inr (mkTable (show_header t) (show_lines t) (box t)
                                (title t) (title_style t) (columns t)
                                (rows t ++ rws),
                        offset + foldr Z.add 0 (map field_bitcount fs'))
               end).
  { induction fs' as [|f fs' IH]; intros t offset;
      cbn [fold_left field_rows map foldr].
    - rewrite app_nil_r, Z.add_0_r. by destruct t.
    - assert (Hstep : step (inr (t, offset)) f
                      = match value_cell (attrs (field_name f)) indent with
                        | inl e => inl e
                        | inr cell =>
                            inr (add_row t (field_row offset f cell),
                                 offset + field_bitcount f)
                        end).
      { unfold step, field_row, value_cell, range_label.
        destruct f as [name ty|name ty bc]; cbn [field_name field_bitcount];
          destruct (attrs name) as [elems|n|s'|n|[e|n]]; try reflexivity;
          try (rewrite array_dump_fold; reflexivity);
          destruct (print_structure s' (indent + 2)); reflexivity. }
      rewrite Hstep.
      destruct (value_cell (attrs (field_name f)) indent) as [e|cell];
        [apply Hraised|].
      rewrite IH.
      destruct (field_rows attrs indent (offset + field_bitcount f) fs');
        [reflexivity|].
      cbn. rewrite <- app_assoc. do 2 f_equal. lia. }
  rewrite Hgen.
  change (getattr (mkStructure c fs attrs raw)) with attrs.
  destruct (field_rows attrs indent 0 fs); reflexivity.
Qed.

Lemma offset_of_0 (fs : list field) : offset_of fs 0 = 0.
Proof. reflexivity. Qed.

Lemma offset_of_S (f : field) (fs : list field) (i : nat) :
  offset_of (f :: fs) (S i) = field_bitcount f + offset_of fs i.
Proof. reflexivity. Qed.

Lemma offset_of_next (pre post : list field) (f : field) :
  offset_of (pre ++ f :: post) (S (length pre))
  = offset_of (pre ++ f :: post) (length pre) + field_bitcount f.
Proof.
  induction pre as [|g pre IH]; cbn [app length].
  - unfold offset_of. simpl. lia.
  - rewrite !offset_of_S, IH. lia.
Qed.


(** When the rows are produced, row number [i] is the row of field number
    [i], at the offset the widths before it add up to. *)
Lemma field_rows_lookup attrs indent offset fs rows i f :
  field_rows attrs indent offset fs = inr rows ->
  fs !! i = Some f ->
  exists cell,
    value_cell (attrs (field_name f)) indent = inr cell
    /\ rows !! i = Some (field_row (offset + offset_of fs i) f cell).
Proof.
  revert offset rows i. induction fs as [|g fs IH]; intros offset rows i;
    cbn [field_rows]; [by intros _ ?|].
  destruct (value_cell (attrs (field_name g)) indent) as [e|cell] eqn:Ecell;
    [discriminate|].
  destruct (field_rows attrs indent _ fs) as [e|rows'] eqn:E; [discriminate|].
  intros [= <-] Hi. destruct i as [|i].
  - injection Hi as <-. exists cell. split; [exact Ecell|].
    rewrite offset_of_0, Z.add_0_r. reflexivity.
  - destruct (IH _ _ _ E Hi) as (c & Hc & Hrow).
    exists c. split; [exact Hc|].
    rewrite offset_of_S, Z.add_assoc. exact Hrow.
Qed.

(** The rows are produced exactly when the cell of every field is. *)
Lemma field_rows_inr attrs indent offset fs :
  (exists rows, field_rows attrs indent offset fs = inr rows)
  <-> Forall (fun f => exists cell,
                  value_cell (attrs (field_name f)) indent = inr cell) fs.
Proof.
  revert offset. induction fs as [|f fs IH]; intros offset; cbn [field_rows].
  - split; [constructor | eauto].
  - split.
    + intros [rows H].
      destruct (value_cell (attrs (field_name f)) indent) as [e|cell] eqn:Ec;
        [discriminate|].
      destruct (field_rows attrs indent _ fs) as [e|rows'] eqn:E;
        [discriminate|].
      constructor; [eauto|]. apply (IH (offset + field_bitcount f)). eauto.
    + intros H. apply Forall_cons in H as [[cell Hc] Hfs].
      rewrite Hc.
      apply (IH (offset + field_bitcount f)) in Hfs as [rows' ->]. eauto.
Qed.


Lemma printed_rows_table (rows : list (list Renderable)) :
  printed_rows (structure_table rows) = rows.
Proof. unfold printed_rows. cbn. apply app_nil_r. Qed.

(** What [print_structure] returns, when it returns. *)
Lemma print_structure_inr (s : Structure) (indent : Z) (r : Renderable) :
  print_structure s indent = inr r ->
  exists rows,
    field_rows (getattr s) indent 0 (fields_of s) = inr rows
    /\ r = structure_table rows.
Proof.
  rewrite print_structure_unfold.
  destruct (field_rows _ _ _ _) as [e|rows]; [discriminate|].
  intros [= <-]. eauto.
Qed.

Lemma print_structure_row (s : Structure) (indent : Z) (r : Renderable)
    (i : nat) (f : field) :
  print_structure s indent = inr r ->
  fields_of s !! i = Some f ->
  exists cell,
    value_cell (getattr s (field_name f)) indent = inr cell
    /\ printed_rows r !! i
       = Some (field_row (offset_of (fields_of s) i) f cell).
Proof.
  intros Hr Hf. destruct (print_structure_inr _ _ _ Hr) as (rows & Hrows & ->).
  rewrite printed_rows_table.
  destruct (field_rows_lookup _ _ _ _ _ _ _ Hrows Hf) as (cell & Hc & Hrow).
  exists cell. by rewrite Z.add_0_l in Hrow.
Qed.

Scheme value_mut := Induction for value Sort Prop
  with Structure_mut := Induction for Structure Sort Prop.

(** [print_structure] returns on the structures in which every value has a
    cell, at every depth, and on no other. *)
Lemma printable_returns (s : Structure) (indent : Z) :
  printable s = true <-> exists r, print_structure s indent = inr r.
Proof.
  revert indent.
  induction s
    using Structure_mut
    with (P := fun v => forall indent,
                 match v with
                 | VStructure s' => printable s'
                 | VOther (inl _) => false
                 | _ => true
                 end = true
                 <-> exists cell, value_cell v indent = inr cell);
    intros indent; cbn [value_cell].
  - split; eauto.
  - split; eauto.
  - rewrite (IHs (indent + 2)).
    destruct (print_structure s (indent + 2)); split; intros [? ?];
      try discriminate; eauto.
  - split; eauto.
  - destruct int_; split; try intros [? ?]; try discriminate; eauto.
  - rewrite print_structure_unfold. cbn [fields_of printable].
    change (getattr (mkStructure cls _fields_ getattr0 raw)) with getattr0.
    rewrite forallb_forall, <- List.Forall_forall.
    etransitivity;
      [apply Forall_iff; intros f; apply (H (field_name f) indent)|].
    rewrite <- (field_rows_inr _ indent 0).
    destruct (field_rows _ _ _ _); split; intros [? ?];
      try discriminate; eauto.
Qed.

(** ** Facts about the formatting functions *)

Section FormatFacts.







Lemma zeros_length (k : nat) (s : string) :
  String.length (zeros k +:+ s) = (k + String.length s)%nat.
Proof. induction k; simpl; auto. Qed.

Lemma zfill_length (w : nat) (s : string) :
  String.length (zfill w s) = Nat.max w (String.length s).
Proof. unfold zfill. rewrite zeros_length. lia. Qed.



Lemma parse_dec_from_pos (d : Decimal.uint) (acc : positive) :
  parse_dec_from (N.pos acc) (DecimalString.NilEmpty.string_of_uint d)
  = Some (N.pos (Pos.of_uint_acc d acc)).
Proof.
  revert acc.
  induction d; intros acc;
    cbn [DecimalString.NilEmpty.string_of_uint parse_dec_from Pos.of_uint_acc];
    [reflexivity | ..];
    match goal with
    | |- context [is_dec_digit ?c] =>
        change (is_dec_digit c) with true
    end; cbv beta iota;
    match goal with
    | |- parse_dec_from ?a _ = Some (N.pos (Pos.of_uint_acc _ ?b)) =>
        replace a with (N.pos b) by (vm_compute N_of_ascii; lia)
    end; apply IHd.
Qed.

Lemma parse_dec_from_0 (d : Decimal.uint) :
  parse_dec_from 0 (DecimalString.NilEmpty.string_of_uint d)
  = Some (Pos.of_uint d).
Proof.
  induction d;
    cbn [DecimalString.NilEmpty.string_of_uint parse_dec_from Pos.of_uint];
    [reflexivity | ..];
    match goal with
    | |- context [is_dec_digit ?c] =>
        change (is_dec_digit c) with true
    end; cbv beta iota;
    first [ exact IHd | apply parse_dec_from_pos ].
Qed.

Lemma parse_dec_from_zfill (w : nat) (s : string) :
  parse_dec_from 0 (zfill w s) = parse_dec_from 0 s.
Proof.
  unfold zfill.
  induction (w - String.length s)%nat as [|k IH]; [reflexivity|]. exact IH.
Qed.

Lemma dec_of_N_nonempty (n : N) : dec_of_N n <> EmptyString.
Proof.
  unfold dec_of_N. destruct n as [|p]; [discriminate|]. simpl.
  intros H.
  pose proof (DecimalPos.Unsigned.of_to p) as Hp.
  destruct (Pos.to_uint p); try discriminate.
Qed.

(** A non-negative integer shows as the decimal numeral of its value, at
    least [w] digits long. *)
Lemma format_dec_reads_back (w : nat) (n : N) :
  let s := format_zero_padded dec_of_N w (Z.of_N n) in
  parse_dec s = Some n /\ (w <= String.length s)%nat.
Proof.
  cbv zeta. unfold format_zero_padded.
  destruct (Z.ltb_spec (Z.of_N n) 0) as [Hneg|_]; [lia|].
  rewrite Zabs2N.id. split.
  - assert (Hne : zfill w (dec_of_N n) <> EmptyString).
    { intros H. apply (f_equal String.length) in H.
      rewrite zfill_length in H. simpl in H.
      pose proof (dec_of_N_nonempty n).
      destruct (dec_of_N n); [done | simpl in H; lia]. }
    unfold parse_dec. destruct (zfill w (dec_of_N n)) eqn:E; [done|].
    rewrite <- E, parse_dec_from_zfill.
    unfold dec_of_N. rewrite parse_dec_from_0.
    f_equal. apply DecimalN.Unsigned.of_to.
  - rewrite zfill_length. lia.
Qed.

End FormatFacts.

(** ** Facts about [grouper_it] and about single bytes *)

Lemma grouper_fuel_concat {A} (n fuel : nat) (l : list A) :
  (0 < n)%nat -> (length l <= fuel)%nat ->
  concat (grouper_fuel fuel n l) = l.
Proof.
  intros Hn. revert l.
  induction fuel as [|fuel IH]; intros l Hl.
  - destruct l; [reflexivity | simpl in Hl; lia].
  - cbn [grouper_fuel].
    destruct (take n l) as [|x chunk] eqn:E.
    + destruct l; [reflexivity|]. destruct n; [lia | discriminate].
    + cbn [concat]. rewrite IH.
      * rewrite <- E. apply take_drop.
      * rewrite length_drop.
        assert (length (take n l) = S (length chunk)) as Hlen by (by rewrite E).
        rewrite length_take in Hlen. lia.
Qed.

Lemma grouper_fuel_lengths {A} (n fuel : nat) (l : list A) :
  (0 < n)%nat -> (length l <= fuel)%nat ->
  map length (grouper_fuel fuel n l)
  = replicate (length l / n) n
    ++ (if (length l mod n =? 0)%nat then [] else [(length l mod n)%nat]).
Proof.
  intros Hn. revert l.
  induction fuel as [|fuel IH]; intros l Hl.
  - destruct l; [|simpl in Hl; lia]. simpl.
    rewrite Nat.Div0.div_0_l, Nat.Div0.mod_0_l. reflexivity.
  - cbn [grouper_fuel].
    destruct (take n l) as [|x chunk] eqn:E.
    + destruct l; [|destruct n; [lia | discriminate]]. simpl.
      rewrite Nat.Div0.div_0_l, Nat.Div0.mod_0_l. reflexivity.
    + assert (length (take n l) = S (length chunk)) as Hlen by (by rewrite E).
      rewrite length_take in Hlen.
      cbn [map]. rewrite IH by (rewrite length_drop; lia).
      rewrite length_drop.
      destruct (Nat.lt_ge_cases (length l) n) as [Hlt|Hge].
      * replace (length l - n)%nat with 0%nat by lia.
        rewrite Nat.Div0.div_0_l, Nat.Div0.mod_0_l.
        rewrite Nat.div_small, Nat.mod_small by lia.
        destruct (Nat.eqb_spec (length l) 0); [lia|].
        simpl. f_equal. simpl. lia.
      * assert (exists m, length l = (m + 1 * n)%nat /\ (length l - n)%nat = m)
          as (m & Hm1 & Hm2) by (exists (length l - n)%nat; lia).
        rewrite Hm2, Hm1.
        rewrite Nat.div_add, Nat.Div0.mod_add by lia.
        rewrite Nat.add_1_r. cbn [replicate app].
        f_equal. simpl. lia.
Qed.

Lemma grouper_it_concat (elems : list byte) :
  concat (grouper_it 20 elems) = elems.
Proof. apply grouper_fuel_concat; lia. Qed.

Lemma grouper_it_lengths (elems : list byte) :
  map length (grouper_it 20 elems)
  = replicate (length elems / 20) 20%nat
    ++ (if (length elems mod 20 =? 0)%nat then []
        else [(length elems mod 20)%nat]).
Proof. apply grouper_fuel_lengths; lia. Qed.

Lemma format_02X_byte (b : byte) :
  String.length (format_02X (int_of_byte b)) = 2%nat
  /\ string_forallb is_upper_hex (format_02X (int_of_byte b)) = true
  /\ parse_upper_hex (format_02X (int_of_byte b)) = Some (Byte.to_N b).
Proof. destruct b; vm_compute; auto. Qed.

Lemma ascii_char_spec (b : byte) :
  (ascii_char b = ascii_of_byte b <-> 32 <= int_of_byte b <= 126)
  /\ (~ (32 <= int_of_byte b <= 126) -> ascii_char b = "."%char).
Proof.
  unfold ascii_char. case_bool_decide as Hr.
  - split; [tauto | intros []; exact Hr].
  - split; [|reflexivity]. split; [|tauto].
    intros Heq. exfalso. apply Hr.
    assert (b = "."%byte) as ->.
    { rewrite <- (byte_of_ascii_of_byte b), <- Heq. reflexivity. }
    vm_compute. split; discriminate.
Qed.

(** ** [print_structure]: widths, offsets and rows *)

(** C2. A field declared as a pair [(name, type)] is given the width
    [sizeof(type) * 8] bits, and a field declared as a triple
    [(name, type, bitcount)] the width [bitcount] as it stands:
    [print_structure] returns on every structure whose values can be shown;
    in what it returns, the row of the field is labelled from its offset to
    its offset plus that width; and the next field starts that many bits
    further. *)
Theorem print_structure_field_width
    (cls : string) (pre post : list field) (attrs : string -> value)
    (raw : list byte) (indent : Z) (name : string) (type_ : ctype)
    (bitcount : Z) :
  let fs2 := pre ++ Field2 name type_ :: post in
  let fs3 := pre ++ Field3 name type_ bitcount :: post in
  let i := length pre in
  ((printable (mkStructure cls fs2 attrs raw) = true ->
    exists r, print_structure (mkStructure cls fs2 attrs raw) indent = inr r)
   /\ (forall r,
       print_structure (mkStructure cls fs2 attrs raw) indent = inr r ->
       exists cell,
         value_cell (attrs name) indent = inr cell
         /\ printed_rows r !! i
            = Some [Text (range_label (offset_of fs2 i)
                                      (offset_of fs2 i + sizeof type_ * 8));
                    Text name; cell])
   /\ offset_of fs2 (S i) = offset_of fs2 i + sizeof type_ * 8)
  /\
  ((printable (mkStructure cls fs3 attrs raw) = true ->
    exists r, print_structure (mkStructure cls fs3 attrs raw) indent = inr r)
   /\ (forall r,
       print_structure (mkStructure cls fs3 attrs raw) indent = inr r ->
       exists cell,
         value_cell (attrs name) indent = inr cell
         /\ printed_rows r !! i
            = Some [Text (range_label (offset_of fs3 i)
                                      (offset_of fs3 i + bitcount));
                    Text name; cell])
   /\ offset_of fs3 (S i) = offset_of fs3 i + bitcount).
Proof.
  cbv zeta.
  assert (Hrow : forall f r,
             print_structure (mkStructure cls (pre ++ f :: post) attrs raw)
                             indent = inr r ->
             exists cell,
               value_cell (attrs (field_name f)) indent = inr cell
               /\ printed_rows r !! length pre
                  = Some (field_row
                            (offset_of (pre ++ f :: post) (length pre)) f
                            cell)).
  { intros f r Hr.
    apply (print_structure_row _ _ _ (length pre) f Hr).
    cbn [fields_of]. by rewrite list_lookup_middle. }
  split;
    (split; [apply printable_returns
            | split; [intros r Hr | apply offset_of_next]]).
  - apply (Hrow (Field2 name type_) r Hr).
  - apply (Hrow (Field3 name type_ bitcount) r Hr).
Qed.

Lemma print_structure_field_width_witness :
  (exists r,
      print_structure Samples.page 0 = inr r
      /\ exists cell,
           value_cell (getattr Samples.page "revision") 0 = inr cell
           /\ printed_rows r !! 0%nat
              = Some [Text (range_label
                              (offset_of (fields_of Samples.page) 0)
                              (offset_of (fields_of Samples.page) 0
                               + sizeof Samples.c_uint16 * 8));
                      Text "revision"; cell])
  /\ (exists r,
         print_structure Samples.flags 0 = inr r
         /\ exists cell,
              value_cell (getattr Samples.flags "high") 0 = inr cell
              /\ printed_rows r !! 1%nat
                 = Some [Text (range_label
                                 (offset_of (fields_of Samples.flags) 1)
                                 (offset_of (fields_of Samples.flags) 1 + 5));
                         Text "high"; cell]).
Proof.
  split.
  - destruct (proj1 (print_structure_field_width "Page" []
                       [Field2 "vendor" Samples.c_ubyte_Array_23;
                        Field2 "flags" Samples.Flags_t;
                        Field2 "units_read" Samples.c_uint128_t]
                       (getattr Samples.page) [] 0 "revision"
                       Samples.c_uint16 0))
      as (Hreturns & Hrow & _).
    destruct (Hreturns eq_refl) as [r Hr].
    exists r. split; [exact Hr | exact (Hrow r Hr)].
  - destruct (proj2 (print_structure_field_width "Flags"
                       [Field3 "low" Samples.c_uint8 3] []
                       (getattr Samples.flags) [xbd] 0 "high"
                       Samples.c_uint8 5))
      as (Hreturns & Hrow & _).
    destruct (Hreturns eq_refl) as [r Hr].
    exists r. split; [exact Hr | exact (Hrow r Hr)].
Defined.






(** C9. In the dump of an array, the bytes are cut into rows of 20, only the
    last row possibly shorter; the hex column shows every byte as exactly two
    upper-case hexadecimal digits; the ASCII column shows a byte [b] as
    [chr(b)] exactly when [32 <= b <= 126] and as ['.'] otherwise.  The dump
    is the cell of the array field in what [print_structure] returns, and it
    returns on every structure whose values can be shown. *)
Theorem print_structure_array_dump
    (s : Structure) (indent : Z) (i : nat) (f : field) (elems : list byte) :
  fields_of s !! i = Some f ->
  getattr s (field_name f) = VArray elems ->
  (printable s = true -> exists r, print_structure s indent = inr r)
  /\ (forall r,
         print_structure s indent = inr r ->
         exists label t chunks,
           printed_rows r !! i = Some [label; Text (field_name f); OfTable t]
           /\ rows t
              = map (fun chunk =>
                       [Text (join " "
                                (map (fun b => format_02X (int_of_byte b))
                                     chunk));
                        Text (string_of_chars (map ascii_char chunk))])
                    chunks
           /\ concat chunks = elems
           /\ map length chunks
              = replicate (length elems / 20) 20%nat
                ++ (if (length elems mod 20 =? 0)%nat then []
                    else [(length elems mod 20)%nat]))
  /\ (forall b : byte,
         String.length (format_02X (int_of_byte b)) = 2%nat
         /\ string_forallb is_upper_hex (format_02X (int_of_byte b)) = true
         /\ parse_upper_hex (format_02X (int_of_byte b)) = Some (Byte.to_N b))
  /\ (forall b : byte,
         (ascii_char b = ascii_of_byte b <-> 32 <= int_of_byte b <= 126)
         /\ (~ (32 <= int_of_byte b <= 126) -> ascii_char b = "."%char)).
Proof.
  intros Hf Hv. split; [apply printable_returns|]. split; [|split].
  - intros r Hr.
    destruct (print_structure_row _ _ _ _ _ Hr Hf) as (cell & Hc & Hrow).
    rewrite Hv in Hc. injection Hc as <-.
    rewrite Hrow. unfold field_row.
    eexists _, _, (grouper_it 20 elems). split; [reflexivity|].
    split; [reflexivity|]. split.
    + apply grouper_it_concat.
    + apply grouper_it_lengths.
  - apply format_02X_byte.
  - apply ascii_char_spec.
Qed.

Lemma print_structure_array_dump_witness :
  exists r,
    print_structure Samples.page 0 = inr r
    /\ (exists label t chunks,
           printed_rows r !! 1%nat = Some [label; Text "vendor"; OfTable t]
           /\ rows t
              = map (fun chunk =>
                       [Text (join " "
                                (map (fun b => format_02X (int_of_byte b))
                                     chunk));
                        Text (string_of_chars (map ascii_char chunk))])
                    chunks
           /\ concat chunks = Samples.vendor_bytes
           /\ map length chunks = [20; 3]%nat)
    /\ (forall b : byte,
           String.length (format_02X (int_of_byte b)) = 2%nat
           /\ string_forallb is_upper_hex (format_02X (int_of_byte b)) = true
           /\ parse_upper_hex (format_02X (int_of_byte b))
              = Some (Byte.to_N b))
    /\ (forall b : byte,
           (ascii_char b = ascii_of_byte b <-> 32 <= int_of_byte b <= 126)
           /\ (~ (32 <= int_of_byte b <= 126) -> ascii_char b = "."%char)).
Proof.
  destruct (print_structure_array_dump Samples.page 0 1
              (Field2 "vendor" Samples.c_ubyte_Array_23) Samples.vendor_bytes
              eq_refl eq_refl)
    as (Hreturns & Hdump & Hbytes).
  destruct (Hreturns eq_refl) as [r Hr].
  exists r. split; [exact Hr|]. split; [exact (Hdump r Hr) | exact Hbytes].
Defined.

(** ** The codec: decoding and encoding are inverse to each other *)

Section CodecFacts.
Import Codec CodecLoops.

Lemma decode_bits_eq (size : nat) (fs : list FieldSpec) (bits : list bool) :
  decode_bits (Description size fs) bits
  = if negb (length bits =? 8 * size)%nat then inl SizeMismatch
    else match read_fields bits fs 0 with
         | inl e => inl e
         | inr vs => inr (mkDecoded (Description size fs) (bytes_of_bits bits) vs)
         end.
Proof.
  cbn [decode_bits]. destruct (negb _); [reflexivity|].
  match goal with
  | |- match ?F fs 0%nat with _ => _ end = _ =>
      assert (H : forall fs0 o, F fs0 o = read_fields bits fs0 o)
  end.
  { induction fs0 as [|f fs0 IH]; intros o; [reflexivity|].
    cbn [read_fields]. rewrite <- IH. reflexivity. }
  rewrite H. reflexivity.
Qed.

Lemma value_bits_struct (w : nat) (d : StructureDescription)
    (buf : list byte) (vs : list (string * FieldValue)) :
  value_bits w (StructValue d buf vs)
  = pack_fields (fields d) vs ++ drop (widths (fields d)) (bits_of_bytes buf).
Proof.
  cbn [value_bits]. unfold widths. f_equal.
Qed.

Lemma byte_bits_length (b : byte) : length (byte_bits b) = 8%nat.
Proof.
  unfold byte_bits.
  destruct (Byte.to_bits b) as (?&?&?&?&?&?&?&?). reflexivity.
Qed.

Lemma bits_of_bytes_length (bs : list byte) :
  length (bits_of_bytes bs) = (8 * length bs)%nat.
Proof.
  induction bs as [|b bs IH]; [reflexivity|].
  unfold bits_of_bytes in *. cbn [map concat].
  rewrite length_app, byte_bits_length, IH. simpl. lia.
Qed.

Lemma bytes_of_bits_of_bytes (bs : list byte) :
  bytes_of_bits (bits_of_bytes bs) = bs.
Proof.
  induction bs as [|b bs IH]; [reflexivity|].
  unfold bits_of_bytes in *. cbn [map concat].
  unfold byte_bits at 1.
  destruct (Byte.to_bits b) as (b0&b1&b2&b3&b4&b5&b6&b7) eqn:E.
  cbn [app bytes_of_bits]. rewrite IH, <- E, Byte.of_bits_to_bits.
  reflexivity.
Qed.

Lemma bits_of_bytes_of_bits (k : nat) (bits : list bool) :
  length bits = (8 * k)%nat -> bits_of_bytes (bytes_of_bits bits) = bits.
Proof.
  revert bits. induction k as [|k IH]; intros bits Hlen.
  - destruct bits; [reflexivity | discriminate].
  - do 8 (destruct bits as [|? bits]; [simpl in Hlen; lia|]).
    cbn [bytes_of_bits]. unfold bits_of_bytes in *. cbn [map concat].
    rewrite IH by (simpl in Hlen; lia).
    unfold byte_bits. rewrite Byte.to_bits_of_bits. reflexivity.
Qed.

Lemma bytes_of_bits_length (k : nat) (bits : list bool) :
  length bits = (8 * k)%nat -> length (bytes_of_bits bits) = k.
Proof.
  intros H.
  pose proof (f_equal (@length bool) (bits_of_bytes_of_bits k bits H)) as H'.
  rewrite bits_of_bytes_length in H'. lia.
Qed.

Lemma bits_of_N_of_bits (bits : list bool) :
  bits_of_N (length bits) (N_of_bits bits) = bits.
Proof.
  induction bits as [|b bits IH]; [reflexivity|].
  cbn [length bits_of_N N_of_bits]. f_equal.
  - rewrite N.odd_add_mul_2. by destruct b.
  - replace (N.div2 (N.b2n b + 2 * N_of_bits bits)) with (N_of_bits bits);
      [exact IH|].
    destruct b, (N_of_bits bits); reflexivity.
Qed.

(** Induction over descriptions with the children of nested fields. *)
Fixpoint description_ind' (P : StructureDescription -> Prop)
    (step : forall size fs, Forall (on_children P) fs -> P (Description size fs))
    (d : StructureDescription) : P d :=
  match d with
  | Description size fs =>
      step size fs
        ((fix go (fs : list FieldSpec) : Forall (on_children P) fs :=
            match fs as l return Forall (on_children P) l with
            | [] => List.Forall_nil _
            | f :: fs' =>
                @List.Forall_cons _ (on_children P) f fs'
                  (match kind f as k
                         return match k with
                                | NestedStructure child => P child
                                | _ => True
                                end
                   with
                   | NestedStructure child => description_ind' P step child
                   | _ => I
                   end)
                  (go fs')
            end) fs)
  end.

Lemma read_fields_ok (bits : list bool) (fs : list FieldSpec) (o : nat) :
  Forall (on_children decodes_back) fs ->
  forallb field_valid fs = true ->
  (o + widths fs <= length bits)%nat ->
  exists vs,
    read_fields bits fs o = inr vs
    /\ pack_fields fs vs = span o (widths fs) bits.
Proof.
  revert o. induction fs as [|f fs IH]; intros o Hall Hvalid Hfit.
  - exists []. split; [reflexivity|]. unfold span. by rewrite take_0.
  - apply Forall_cons in Hall as [Hf Hall].
    cbn [forallb] in Hvalid. apply andb_prop in Hvalid as [Hfv Hvalid].
    unfold widths in *. cbn [map foldr] in *.
    assert (Hlen : length (span o (bit_width f) bits) = bit_width f).
    { unfold span. rewrite length_take, length_drop. lia. }
    destruct (IH (o + bit_width f)%nat Hall Hvalid) as (vs & Hread & Hpack);
      [lia|].
    assert (Hv : exists v,
               match kind f with
               | NestedStructure child =>
                   match decode_bits child (span o (bit_width f) bits) with
                   | inl e => inl e
                   | inr x =>
                       inr (StructValue (description x) (buffer x) (values x))
                   end
               | ByteArray =>
                   inr (BytesValue (bytes_of_bits (span o (bit_width f) bits)))
               | _ => inr (IntValue (N_of_bits (span o (bit_width f) bits)))
               end = inr (B := FieldValue) (A := CodecError) v
               /\ value_bits (bit_width f) v = span o (bit_width f) bits).
    { unfold field_valid in Hfv. unfold on_children in Hf.
      destruct (kind f) as [| |child|].
      - eexists. split; [reflexivity|]. cbn [value_bits].
        rewrite <- Hlen at 1. apply bits_of_N_of_bits.
      - eexists. split; [reflexivity|]. cbn [value_bits].
        rewrite <- Hlen at 1. apply bits_of_N_of_bits.
      - apply andb_prop in Hfv as [Hw Hc]. apply Nat.eqb_eq in Hw.
        destruct (Hf (span o (bit_width f) bits) Hc)
          as (x & Hx & Hd & Hbuf & Hp); [lia|].
        rewrite Hx. eexists. split; [reflexivity|].
        rewrite value_bits_struct, Hd, Hp, Hbuf.
        rewrite (bits_of_bytes_of_bits (total_size child)) by lia.
        apply take_drop.
      - apply Nat.eqb_eq in Hfv.
        eexists. split; [reflexivity|]. cbn [value_bits].
        apply (bits_of_bytes_of_bits (bit_width f / 8)).
        rewrite Hlen. apply Nat.Div0.div_exact in Hfv. lia. }
    destruct Hv as (v & Hv & Hvb).
    exists ((name f, v) :: vs). split.
    + cbn [read_fields]. cbv zeta. rewrite Hv, Hread. reflexivity.
    + cbn [pack_fields]. rewrite Hvb, Hpack. unfold span.
      rewrite <- drop_drop. apply take_take_drop.
Qed.

Lemma decode_bits_ok (d : StructureDescription) : decodes_back d.
Proof.
  induction d as [size fs IH] using description_ind'.
  intros bits Hvalid Hlen. cbn [total_size] in Hlen.
  cbn [valid] in Hvalid. apply andb_prop in Hvalid as [Hsum Hfields].
  apply Nat.leb_le in Hsum.
  destruct (read_fields_ok bits fs 0 IH Hfields) as (vs & Hread & Hpack).
  { unfold widths. lia. }
  exists (mkDecoded (Description size fs) (bytes_of_bits bits) vs).
  rewrite decode_bits_eq, Hread.
  apply Nat.eqb_eq in Hlen as Hlenb. rewrite Hlenb. cbn [negb].
  repeat split. cbn [fields values]. rewrite Hpack.
  unfold span. by rewrite drop_0.
Qed.

(** C4. For a valid description (its fields may leave padding before the
    declared total size) and a buffer of the declared total size, decoding
    succeeds, encoding the decoded structure gives the buffer back byte for
    byte, padding included, and decoding those bytes again gives the same
    decoded structure. *)
Theorem decode_encode_round_trip
    (d : StructureDescription) (bytes : list byte) :
  valid d = true ->
  length bytes = total_size d ->
  exists x,
    decode d bytes = inr x
    /\ encode x = bytes
    /\ decode d (encode x) = inr x.
Proof.
  intros Hvalid Hlen.
  destruct (decode_bits_ok d (bits_of_bytes bytes) Hvalid)
    as (x & Hx & Hd & Hbuf & Hpack).
  { rewrite bits_of_bytes_length. lia. }
  assert (Henc : encode x = bytes).
  { unfold encode, encode_bits.
    rewrite value_bits_struct, Hd, Hpack, Hbuf, bytes_of_bits_of_bytes.
    rewrite take_drop. apply bytes_of_bits_of_bytes. }
  exists x. unfold decode at 1. rewrite Henc. unfold decode. auto.
Qed.

Lemma decode_encode_round_trip_witness :
  exists x,
    decode padded_page padded_page_bytes = inr x
    /\ encode x = padded_page_bytes
    /\ decode padded_page (encode x) = inr x.
Proof.
  exact (decode_encode_round_trip padded_page padded_page_bytes
           eq_refl eq_refl).
Defined.

(** A buffer of any other length is refused with SizeMismatch. *)
Lemma decode_size_mismatch (d : StructureDescription) (bytes : list byte) :
  length bytes <> total_size d -> decode d bytes = inl SizeMismatch.
Proof.
  intros Hne. unfold decode. destruct d as [size fs].
  rewrite decode_bits_eq, bits_of_bytes_length. cbn [total_size] in Hne.
  destruct (Nat.eqb_spec (8 * length bytes) (8 * size)); [lia | reflexivity].
Qed.

End CodecFacts.

(** ** The commands *)

Section CliFacts.
Import Cli.
Local Open Scope cli_scope.

Variable env : Env.

Lemma scsi_table_lookup (command : string) :
  ({[ "inquiry" := inquiry; "identify" := identify; "smart" := smart;
      "thresholds" := smart_thresholds ]} : gmap string Method) !! command
  = operation SCSIDevice command.
Proof.
  unfold operation, operations. cbn [List.find].
  repeat (match goal with
          | |- context [String.eqb ?k command] =>
              destruct (String.eqb_spec k command) as [<-|?];
              [reflexivity | rewrite ?lookup_insert_ne by done]
          end).
  rewrite lookup_singleton_ne by done. reflexivity.
Qed.

Lemma nvme_table_lookup (command : string) :
  ({[ "identify" := identify; "smart" := smart ]} : gmap string Method)
    !! command
  = operation NVMEDevice command.
Proof.
  unfold operation, operations. cbn [List.find].
  repeat (match goal with
          | |- context [String.eqb ?k command] =>
              destruct (String.eqb_spec k command) as [<-|?];
              [reflexivity | rewrite ?lookup_insert_ne by done]
          end).
  rewrite lookup_singleton_ne by done. reflexivity.
Qed.

(** What [debug_command] does once the device is open, case by case. *)
Lemma debug_command_run (path command display : string) (device : Device)
    (t : list event) :
  get_device env path = inr device ->
  enter env t device = None ->
  debug_command env path command display t
  = match device_class device with
    | SCSIDevice =>
        let t1 := t ++ [Enter device; GetAttr device "inquiry";
                        GetAttr device "identify"; GetAttr device "smart";
                        GetAttr device "smart_thresholds"] in
        match operation SCSIDevice command with
        | None => (Normal tt, t1 ++ [ConsolePrint unsupported; Exit device])
        | Some m =>
            match scsi_command env t1 device m with
            | inl e => (Raised e, t1 ++ [Call device m; Exit device])
            | inr r =>
                match display_structure env display (fst r) with
                | inl e => (Raised e, t1 ++ [Call device m; Exit device])
                | inr out =>
                    (Normal tt, t1 ++ [Call device m] ++ out ++ [Exit device])
                end
            end
        end
    | NVMEDevice =>
        let t1 := t ++ [Enter device; GetAttr device "identify";
                        GetAttr device "smart"] in
        match operation NVMEDevice command with
        | None => (Normal tt, t1 ++ [ConsolePrint unsupported; Exit device])
        | Some m =>
            match nvme_command env t1 device m with
            | inl e => (Raised e, t1 ++ [Call device m; Exit device])
            | inr s =>
                match display_structure env display s with
                | inl e => (Raised e, t1 ++ [Call device m; Exit device])
                | inr out =>
                    (Normal tt, t1 ++ [Call device m] ++ out ++ [Exit device])
                end
            end
        end
    | OtherDevice =>
        (Raised (NotImplementedError "Unknown device type."),
         t ++ [Enter device; Exit device])
    end.
Proof.
  intros Hget Henter.
  unfold debug_command, def_, bind, lift, with_, isinstance.
  rewrite Hget, Henter.
  destruct (device_class device) eqn:Hcls; cbn [bool_decide decide_rel].
  - rewrite bool_decide_eq_true_2 by done.
    unfold emit at 1 2 3 4. cbv beta iota zeta.
    rewrite scsi_table_lookup. rewrite <- !app_assoc. cbn [app].
    destruct (operation SCSIDevice command) as [m|].
    + unfold access.
      destruct (scsi_command env _ device m) as [e|r].
      * by rewrite <- app_assoc.
      * unfold ret, display_structure, emit.
        destruct (String.eqb display "pretty");
          [destruct (print_structure _ 0)|];
          repeat (destruct (String.eqb display _)); cbn;
          rewrite <- ?app_assoc; reflexivity.
    + unfold emit, return_. by rewrite <- !app_assoc.
  - rewrite bool_decide_eq_false_2 by done.
    rewrite bool_decide_eq_true_2 by done.
    unfold emit at 1 2. cbv beta iota zeta.
    rewrite nvme_table_lookup. rewrite <- !app_assoc. cbn [app].
    destruct (operation NVMEDevice command) as [m|].
    + unfold access.
      destruct (nvme_command env _ device m) as [e|r].
      * by rewrite <- app_assoc.
      * unfold ret, display_structure, emit.
        destruct (String.eqb display "pretty");
          [destruct (print_structure _ 0)|];
          repeat (destruct (String.eqb display _)); cbn;
          rewrite <- ?app_assoc; reflexivity.
    + unfold emit, return_. by rewrite <- !app_assoc.
  - rewrite !bool_decide_eq_false_2 by done.
    unfold raise. by rewrite <- app_assoc.
Qed.


Lemma operation_scsi_none (command : string) :
  command ∉ ["inquiry"; "identify"; "smart"; "thresholds"]%string ->
  operation SCSIDevice command = None.
Proof.
  intros Hnot. unfold operation, operations. cbn [List.find].
  repeat (match goal with
          | |- context [String.eqb ?k command] =>
              destruct (String.eqb_spec k command) as [<-|?]
          end; [exfalso; apply Hnot; set_solver|]).
  reflexivity.
Qed.

Lemma operation_nvme_none (command : string) :
  command ∉ ["identify"; "smart"]%string ->
  operation NVMEDevice command = None.
Proof.
  intros Hnot. unfold operation, operations. cbn [List.find].
  repeat (match goal with
          | |- context [String.eqb ?k command] =>
              destruct (String.eqb_spec k command) as [<-|?]
          end; [exfalso; apply Hnot; set_solver|]).
  reflexivity.
Qed.

Lemma scoped_app_Some (t1 t2 : list event) (o0 o : option Device) :
  scoped o0 t1 = Some o -> scoped o0 (t1 ++ t2) = scoped o t2.
Proof.
  revert o0. induction t1 as [|e t1 IH]; intros o0 H; cbn in *.
  - by simplify_eq.
  - destruct (scope_step o0 e); [eauto | discriminate].
Qed.

Lemma scoped_app_None (t1 t2 : list event) (o0 : option Device) :
  scoped o0 t1 = None -> scoped o0 (t1 ++ t2) = None.
Proof.
  revert o0. induction t1 as [|e t1 IH]; intros o0 H; cbn in *.
  - discriminate.
  - destruct (scope_step o0 e); [eauto | reflexivity].
Qed.

Lemma operation_elem (cls : DeviceClass) (command : string) (m : Method) :
  operation cls command = Some m <-> (command, m) ∈ operations cls.
Proof.
  unfold operation. split.
  - intros H. destruct (List.find _ _) as [[c m']|] eqn:E; [|discriminate].
    cbn in H. injection H as H. rewrite H in E. clear H.
    apply List.find_some in E as [Hin Hc].
    apply String.eqb_eq in Hc. rewrite Hc in Hin.
    by apply list_elem_of_In.
  - intros Hin. destruct cls; cbn [operations] in Hin;
      repeat (apply elem_of_cons in Hin as [Hin|Hin];
              [injection Hin as Hc Hm; rewrite Hc, Hm; reflexivity|]);
      by apply elem_of_nil in Hin.
Qed.

Lemma sent_app (t1 t2 : list event) : sent (t1 ++ t2) = sent t1 ++ sent t2.
Proof. apply omap_app. Qed.

Lemma printed_app (t1 t2 : list event) :
  printed (t1 ++ t2) = printed t1 ++ printed t2.
Proof. apply omap_app. Qed.

Lemma display_structure_sent (display : string) (s : Structure)
    (out : list event) :
  display_structure env display s = inr out -> sent out = [].
Proof.
  unfold display_structure.
  destruct (String.eqb display "pretty");
    [destruct (print_structure s 0)|];
    repeat (destruct (String.eqb display _));
    intros [= <-] || discriminate; reflexivity.
Qed.

(** C1. On an opened NVMe device, a command that is not one of the two the
    NVMe variant implements (so "thresholds" and "inquiry" among them) makes
    the debug command print "Command unknown or unsupported by this device."
    and return normally: nothing is raised and no command is sent.  The same
    holds on an opened SCSI device for a command outside its four. *)
Theorem debug_command_unsupported
    (path command display : string) (device : Device) (t : list event) :
  get_device env path = inr device ->
  enter env t device = None ->
  (device_class device = NVMEDevice ->
   command ∉ ["identify"; "smart"]%string ->
   let t' := t ++ [Enter device; GetAttr device "identify";
                   GetAttr device "smart";
                   ConsolePrint
                     (Text "Command unknown or unsupported by this device.");
                   Exit device] in
   debug_command env path command display t = (Normal tt, t')
   /\ sent t' = sent t
   /\ printed t'
      = printed t ++ [Text "Command unknown or unsupported by this device."])
  /\
  (device_class device = SCSIDevice ->
   command ∉ ["inquiry"; "identify"; "smart"; "thresholds"]%string ->
   let t' := t ++ [Enter device; GetAttr device "inquiry";
                   GetAttr device "identify"; GetAttr device "smart";
                   GetAttr device "smart_thresholds";
                   ConsolePrint
                     (Text "Command unknown or unsupported by this device.");
                   Exit device] in
   debug_command env path command display t = (Normal tt, t')
   /\ sent t' = sent t
   /\ printed t'
      = printed t ++ [Text "Command unknown or unsupported by this device."]).
Proof.
  intros Hget Henter. split; intros Hcls Hcmd; cbv zeta;
    rewrite (debug_command_run _ _ _ _ _ Hget Henter), Hcls; cbv zeta.
  - rewrite (operation_nvme_none _ Hcmd), <- app_assoc.
    split; [reflexivity|]. rewrite sent_app, printed_app. cbn.
    by rewrite app_nil_r.
  - rewrite (operation_scsi_none _ Hcmd), <- app_assoc.
    split; [reflexivity|]. rewrite sent_app, printed_app. cbn.
    by rewrite app_nil_r.
Qed.

(** C8. The debug command sends at most one command, and which one is fixed
    by the class of the opened device: on a SCSIDevice "inquiry", "identify",
    "smart" and "thresholds" call [inquiry], [identify], [smart] and
    [smart_thresholds]; on an NVMEDevice "identify" and "smart" call
    [identify] and [smart]; nothing else calls anything. *)
Theorem debug_command_operation_set
    (path command display : string) (device : Device) (t : list event) :
  get_device env path = inr device ->
  enter env t device = None ->
  sent (snd (debug_command env path command display t))
  = sent t ++ match operation (device_class device) command with
              | Some m => [(device, m)]
              | None => []
              end
  /\ operations SCSIDevice
     = [("inquiry", inquiry); ("identify", identify); ("smart", smart);
        ("thresholds", smart_thresholds)]%string
  /\ operations NVMEDevice = [("identify", identify); ("smart", smart)]%string
  /\ (forall cls m,
         operation cls command = Some m <-> (command, m) ∈ operations cls).
Proof.
  intros Hget Henter. split; [|split; [reflexivity|split; [reflexivity|]]].
  - rewrite (debug_command_run _ _ _ _ _ Hget Henter).
    destruct (device_class device); cbv zeta.
    + destruct (operation SCSIDevice command) as [m|].
      * destruct (scsi_command env _ device m) as [e|r];
          [|destruct (display_structure env display (fst r)) as [e|out]
              eqn:Hout];
          cbn [snd]; rewrite ?sent_app, ?(display_structure_sent _ _ _ Hout);
          cbn; by rewrite ?app_nil_r.
      * cbn [snd]. rewrite !sent_app. cbn. by rewrite !app_nil_r.
    + destruct (operation NVMEDevice command) as [m|].
      * destruct (nvme_command env _ device m) as [e|r];
          [|destruct (display_structure env display r) as [e|out] eqn:Hout];
          cbn [snd]; rewrite ?sent_app, ?(display_structure_sent _ _ _ Hout);
          cbn; by rewrite ?app_nil_r.
      * cbn [snd]. rewrite !sent_app. cbn. by rewrite !app_nil_r.
    + cbn [snd operation operations List.find fmap option_fmap option_map].
      rewrite sent_app. cbn. reflexivity.
  - intros cls m. apply operation_elem.
Qed.

(** C10. On an opened device that is neither a SCSIDevice nor an NVMEDevice
    the debug command raises NotImplementedError; no command has been sent,
    and the device is closed on the way out. *)
Theorem debug_command_unknown_device
    (path command display : string) (device : Device) (t : list event) :
  get_device env path = inr device ->
  enter env t device = None ->
  isinstance device SCSIDevice = false ->
  isinstance device NVMEDevice = false ->
  debug_command env path command display t
  = (Raised (NotImplementedError "Unknown device type."),
     t ++ [Enter device; Exit device])
  /\ sent (t ++ [Enter device; Exit device]) = sent t
  /\ (closed t -> closed (t ++ [Enter device; Exit device])).
Proof.
  intros Hget Henter Hscsi Hnvme.
  rewrite (debug_command_run _ _ _ _ _ Hget Henter).
  unfold isinstance in *.
  apply bool_decide_eq_false in Hscsi, Hnvme.
  destruct (device_class device); try done.
  split; [reflexivity|]. split.
  - rewrite sent_app. cbn. by rewrite app_nil_r.
  - unfold closed. intros Hc.
    rewrite (scoped_app_Some _ _ _ _ Hc). cbn. by rewrite decide_True.
Qed.


(** *** The handle discipline *)

Lemma scoped_snoc (o o' : option Device) (t : list event) (e : event) :
  scoped None t = Some o -> scope_step o e = Some o' ->
  scoped None (t ++ [e]) = Some o'.
Proof.
  intros Ht He. rewrite (scoped_app_Some _ _ _ _ Ht). cbn. by rewrite He.
Qed.

Lemma preserves_ret {A} (P : list event -> Prop) (a : A) :
  preserves P (ret a).
Proof. intros t Ht. exact Ht. Qed.

Lemma preserves_raise {A} (P : list event -> Prop) (e : exn) :
  preserves P (raise (A := A) e).
Proof. intros t Ht. exact Ht. Qed.

Lemma preserves_return {A} (P : list event -> Prop) :
  preserves P (return_ (A := A)).
Proof. intros t Ht. exact Ht. Qed.

Lemma preserves_lift {A} (P : list event -> Prop) (r : exn + A) :
  preserves P (lift r).
Proof. intros t Ht. unfold lift. by destruct r. Qed.

Lemma preserves_bind {A B} (P : list event -> Prop) (m : M A) (k : A -> M B) :
  preserves P m -> (forall a, preserves P (k a)) -> preserves P (bind m k).
Proof.
  intros Hm Hk t Ht. unfold bind. specialize (Hm t Ht).
  destruct (m t) as [[a| |e] t']; cbn [snd] in *; auto.
  by apply Hk.
Qed.

Lemma preserves_def (P : list event -> Prop) (body : M unit) :
  preserves P body -> preserves P (def_ body).
Proof.
  intros Hb t Ht. unfold def_. specialize (Hb t Ht).
  by destruct (body t) as [[a| |e] t'].
Qed.

Lemma preserves_for {A S} (P : list event -> Prop) (xs : list A)
    (body : S -> A -> M S) (acc : S) :
  (forall acc x, preserves P (body acc x)) -> preserves P (for_ xs body acc).
Proof.
  intros Hb. revert acc. induction xs as [|x xs IH]; intros acc; cbn [for_].
  - apply preserves_ret.
  - apply preserves_bind; auto.
Qed.

Lemma preserves_emit (o : option Device) (e : event) :
  scope_step o e = Some o ->
  preserves (fun t => scoped None t = Some o) (emit e).
Proof. intros He t Ht. unfold emit. cbn [snd]. by eapply scoped_snoc. Qed.

Lemma preserves_access {A} (d : Device) (ev : event)
    (answer : list event -> exn + A) :
  scope_step (Some d) ev = Some (Some d) ->
  preserves (held d) (access ev answer).
Proof.
  intros He t Ht. unfold access.
  destruct (answer t); cbn [snd]; by eapply scoped_snoc.
Qed.

Lemma scope_step_get (d : Device) (attr : string) :
  scope_step (Some d) (GetAttr d attr) = Some (Some d).
Proof. cbn. by rewrite decide_True. Qed.

Lemma scope_step_call (d : Device) (m : Method) :
  scope_step (Some d) (Call d m) = Some (Some d).
Proof. cbn. by rewrite decide_True. Qed.

(** A [with] block whose body keeps the handle held leaves no handle held. *)
Lemma preserves_with {A} (d : Device) (body : Device -> M A) :
  preserves (held d) (body d) -> preserves closed (with_ env d body).
Proof.
  intros Hb t Ht. unfold with_.
  destruct (enter env t d); [exact Ht|].
  assert (Hin : held d (t ++ [Enter d])) by (by eapply scoped_snoc).
  specialize (Hb _ Hin).
  destruct (body d (t ++ [Enter d])) as [o t']. cbn [snd] in *.
  eapply scoped_snoc; [exact Hb|]. cbn. by rewrite decide_True.
Qed.

(** Whenever a device is read or called in a trace that keeps the
    discipline, its handle is held at that point. *)
Lemma closed_access_held (t1 t2 : list event) (e : event) (d : Device) :
  closed (t1 ++ e :: t2) ->
  (exists attr, e = GetAttr d attr) \/ (exists m, e = Call d m) ->
  held d t1.
Proof.
  unfold closed, held. intros Hc He.
  destruct (scoped None t1) as [o|] eqn:Ht1.
  - rewrite (scoped_app_Some _ _ _ _ Ht1) in Hc. cbn [scoped] in Hc.
    destruct He as [[attr ->]|[m ->]]; cbn in Hc;
      destruct o as [d'|]; try discriminate;
      destruct (decide (d' = d)) as [->|]; done.
  - by rewrite (scoped_app_None _ _ _ Ht1) in Hc.
Qed.

(** C6. Each of the three commands keeps the handle discipline: started with
    no handle held, it ends with no handle held however it ends, having
    acquired a handle only when none was held, read or called a device only
    while holding its handle, and released only the handle it held. *)
Theorem commands_keep_handle_discipline :
  closed []
  /\ preserves closed (enumerate_command env)
  /\ (forall path, preserves closed (details_command env path))
  /\ (forall path command display,
         preserves closed (debug_command env path command display)).
Proof.
  split; [reflexivity|]. split; [|split].
  - unfold enumerate_command. apply preserves_def, preserves_bind.
    + apply preserves_for. intros table device.
      apply preserves_with.
      repeat (apply preserves_bind;
              [apply preserves_access, scope_step_get | intros ?]).
      apply preserves_ret.
    + intros table. by apply (preserves_emit None).
  - intros path. unfold details_command.
    apply preserves_def, preserves_bind; [apply preserves_lift|].
    intros device. apply preserves_bind.
    + apply preserves_with.
      repeat (apply preserves_bind;
              [apply preserves_access, scope_step_get | intros ?]).
      apply preserves_bind; [|intros ?; apply preserves_ret].
      apply preserves_for. intros ? ?. apply preserves_ret.
    + intros table. by apply (preserves_emit None).
  - intros path command display. unfold debug_command.
    apply preserves_def, preserves_bind; [apply preserves_lift|].
    intros device. apply preserves_with, preserves_bind.
    + destruct (isinstance device SCSIDevice);
        [|destruct (isinstance device NVMEDevice)].
      * repeat (apply preserves_bind;
                [apply (preserves_emit (Some device)), scope_step_get
                | intros _]).
        destruct (_ !! command).
        -- apply preserves_bind; [|intros ?; apply preserves_ret].
           apply preserves_access, scope_step_call.
        -- apply preserves_bind; [|intros _; apply preserves_return].
           by apply (preserves_emit (Some device)).
      * repeat (apply preserves_bind;
                [apply (preserves_emit (Some device)), scope_step_get
                | intros _]).
        destruct (_ !! command).
        -- apply preserves_access, scope_step_call.
        -- apply preserves_bind; [|intros _; apply preserves_return].
           by apply (preserves_emit (Some device)).
      * apply preserves_raise.
    + intros structure.
      repeat (destruct (String.eqb display _));
        first [ by apply (preserves_emit (Some device))
              | apply preserves_ret
              | apply preserves_bind;
                [ apply preserves_lift
                | intros rendered; by apply (preserves_emit (Some device)) ] ].
Qed.


(** *** The SMART attribute rows of the details command *)

Lemma for_add_row {A} (xs : list A) (row : A -> list Renderable)
    (table : Table) (t : list event) :
  for_ xs (fun table x => ret (add_row table (row x))) table t
  = (Normal (mkTable (show_header table) (show_lines table) (box table)
                     (title table) (title_style table) (columns table)
                     (rows table ++ map row xs)), t).
Proof.
  revert table. induction xs as [|x xs IH]; intros table; cbn [for_ map].
  - unfold ret. rewrite app_nil_r. by destruct table.
  - unfold bind, ret at 1. rewrite IH. cbn. by rewrite <- app_assoc.
Qed.

(** C7. When the device answers, the details command prints a table whose
    last row holds the "SMART Attributes" table, and that table has one row
    per entry of [device.smart_table], in the order in which the mapping
    yields its values, showing the id, the name, the current value, the
    worst value, the threshold and the name of the unit of the entry. *)
Theorem details_command_smart_rows
    (path : string) (device : Device) (m s : string) (c : Z)
    (entries : list (Z * SmartEntry)) (t : list event) :
  get_device env path = inr device ->
  enter env t device = None ->
  (forall t', model env t' device = inr m) ->
  (forall t', serial env t' device = inr s) ->
  (forall t', temperature env t' device = inr c) ->
  (forall t', smart_table env t' device = inr entries) ->
  exists details attributes,
    details_command env path t
    = (Normal tt,
       t ++ [Enter device; GetAttr device "model"; GetAttr device "serial";
             GetAttr device "temperature"; GetAttr device "smart_table";
             Exit device; ConsolePrint (OfTable details)])
    /\ last (rows details) = Some [Text ""; OfTable attributes]
    /\ title attributes = Some "SMART Attributes"%string
    /\ map header (columns attributes)
       = ["ID"; "Name"; "Current"; "Worst"; "Threshold"; "Unit"]%string
    /\ length (rows attributes) = length entries
    /\ rows attributes
       = map (fun '(_, entry) =>
                [Text (str (entry_id entry));
                 Text (entry_name entry);
                 Text (str (current_value entry));
                 Text (str (worst_value entry));
                 Text (str (threshold entry));
                 Text (unit_name (entry_unit entry))])
             entries.
Proof.
  intros Hget Henter Hmodel Hserial Htemp Htable.
  unfold details_command, def_, bind at 1, lift. rewrite Hget.
  unfold bind at 1, with_. rewrite Henter.
  unfold bind at 1, access at 1. rewrite Hmodel.
  unfold bind at 1, access at 1. rewrite Hserial.
  unfold bind at 1, access at 1. rewrite Htemp.
  unfold bind at 1, access at 1. rewrite Htable.
  unfold bind at 1. rewrite for_add_row. unfold ret, emit.
  rewrite <- !app_assoc. cbn [app].
  do 2 eexists. split; [reflexivity|].
  cbn. repeat split.
  - cbn [rows]. by rewrite !length_map.
  - cbn [rows]. rewrite map_map. apply map_ext. by intros [k entry].
Qed.

End CliFacts.

(** ** The theorems at work on the sample machine *)

Section CliWitnesses.
Import Cli CliSamples.

Lemma debug_command_unsupported_witness :
  (let t' := [] ++ [Enter nvme0; GetAttr nvme0 "identify";
                    GetAttr nvme0 "smart";
                    ConsolePrint
                      (Text "Command unknown or unsupported by this device.");
                    Exit nvme0] in
   debug_command machine "/dev/nvme0" "thresholds" "pretty" []
   = (Normal tt, t')
   /\ sent t' = sent []
   /\ printed t'
      = printed []
        ++ [Text "Command unknown or unsupported by this device."])
  /\
  (let t' := [] ++ [Enter sda; GetAttr sda "inquiry";
                    GetAttr sda "identify"; GetAttr sda "smart";
                    GetAttr sda "smart_thresholds";
                    ConsolePrint
                      (Text "Command unknown or unsupported by this device.");
                    Exit sda] in
   debug_command machine "/dev/sda" "selftest" "pretty" []
   = (Normal tt, t')
   /\ sent t' = sent []
   /\ printed t'
      = printed []
        ++ [Text "Command unknown or unsupported by this device."]).
Proof.
  split.
  - apply (proj1 (debug_command_unsupported machine "/dev/nvme0" "thresholds"
                    "pretty" nvme0 [] eq_refl eq_refl)); [reflexivity|].
    intros H. repeat (apply elem_of_cons in H as [H|H]; [discriminate|]).
    by apply elem_of_nil in H.
  - apply (proj2 (debug_command_unsupported machine "/dev/sda" "selftest"
                    "pretty" sda [] eq_refl eq_refl)); [reflexivity|].
    intros H. repeat (apply elem_of_cons in H as [H|H]; [discriminate|]).
    by apply elem_of_nil in H.
Defined.

Lemma debug_command_operation_set_witness :
  sent (snd (debug_command machine "/dev/sda" "thresholds" "raw" []))
  = sent [] ++ match operation (device_class sda) "thresholds" with
               | Some m => [(sda, m)]
               | None => []
               end
  /\ operations SCSIDevice
     = [("inquiry", inquiry); ("identify", identify); ("smart", smart);
        ("thresholds", smart_thresholds)]%string
  /\ operations NVMEDevice = [("identify", identify); ("smart", smart)]%string
  /\ (forall cls m,
         operation cls "thresholds" = Some m
         <-> ("thresholds"%string, m) ∈ operations cls).
Proof.
  exact (debug_command_operation_set machine "/dev/sda" "thresholds" "raw"
           sda [] eq_refl eq_refl).
Defined.

Lemma debug_command_unknown_device_witness :
  debug_command machine "/dev/loop0" "smart" "pretty" []
  = (Raised (NotImplementedError "Unknown device type."),
     [] ++ [Enter loop0; Exit loop0])
  /\ sent ([] ++ [Enter loop0; Exit loop0]) = sent []
  /\ (closed [] -> closed ([] ++ [Enter loop0; Exit loop0])).
Proof.
  exact (debug_command_unknown_device machine "/dev/loop0" "smart" "pretty"
           loop0 [] eq_refl eq_refl eq_refl eq_refl).
Defined.

Lemma details_command_smart_rows_witness :
  exists details attributes,
    details_command machine "/dev/sda" []
    = (Normal tt,
       [] ++ [Enter sda; GetAttr sda "model"; GetAttr sda "serial";
              GetAttr sda "temperature"; GetAttr sda "smart_table";
              Exit sda; ConsolePrint (OfTable details)])
    /\ last (rows details) = Some [Text ""; OfTable attributes]
    /\ title attributes = Some "SMART Attributes"%string
    /\ map header (columns attributes)
       = ["ID"; "Name"; "Current"; "Worst"; "Threshold"; "Unit"]%string
    /\ length (rows attributes) = length attributes0
    /\ rows attributes
       = map (fun '(_, entry) =>
                [Text (str (entry_id entry));
                 Text (entry_name entry);
                 Text (str (current_value entry));
                 Text (str (worst_value entry));
                 Text (str (threshold entry));
                 Text (unit_name (entry_unit entry))])
             attributes0.
Proof.
  exact (details_command_smart_rows machine "/dev/sda" sda
           "Model of /dev/sda" "Serial of /dev/sda" 36 attributes0 []
           eq_refl eq_refl (fun _ => eq_refl) (fun _ => eq_refl)
           (fun _ => eq_refl) (fun _ => eq_refl)).
Defined.

End CliWitnesses.

(** ** Worked examples *)

Section Worked.
Import Cli CliSamples.

(** The labels and names [print_structure] shows for the sample page. *)
Example page_labels :
  match print_structure Samples.page 0 with
  | inr r => Some (map (take 2) (printed_rows r))
  | inl _ => None
  end
  = Some [[Text "[000:016]"; Text "revision"];
          [Text "[016:200]"; Text "vendor"];
          [Text "[200:208]"; Text "flags"];
          [Text "[208:336]"; Text "units_read"]].
Proof. vm_compute. reflexivity. Qed.

(** A structure with a [c_char * 4] field holding [b"AB"] answered by the
    drive: the pretty display raises inside the [with] block after the
    command was sent, nothing is shown and the handle is released; the raw
    display of the same answer works. *)
Example debug_unprintable :
  let env :=
    {| get_all_devices := [sda];
       get_device := get_device machine;
       enter := enter machine;
       model := model machine;
       serial := serial machine;
       temperature := temperature machine;
       smart_table := smart_table machine;
       scsi_command := fun _ _ _ => inr (Samples.labelled, []);
       nvme_command := nvme_command machine;
       embed_bytes := embed_bytes machine |} in
  debug_command env "/dev/sda" "inquiry" "pretty" []
  = (Raised ValueError,
     [Enter sda; GetAttr sda "inquiry"; GetAttr sda "identify";
      GetAttr sda "smart"; GetAttr sda "smart_thresholds";
      Call sda inquiry; Exit sda])
  /\ debug_command env "/dev/sda" "inquiry" "raw" []
     = (Normal tt,
        [Enter sda; GetAttr sda "inquiry"; GetAttr sda "identify";
         GetAttr sda "smart"; GetAttr sda "smart_thresholds";
         Call sda inquiry; StdoutWrite []; Exit sda]).
Proof. vm_compute. split; reflexivity. Qed.

(** The dump of the 23 vendor bytes: one full row of 20 and a row of 3. *)
Example vendor_dump :
  rows (array_dump Samples.vendor_bytes)
  = [[Text "53 4D 41 52 54 69 65 20 00 7E 7F FF 2E 30 31 32 33 34 35 36";
      Text "SMARTie .~...0123456"];
     [Text "37 38 39"; Text "789"]].
Proof. vm_compute. reflexivity. Qed.

(** Python pads after the sign. *)
Example format_negative :
  (format_03 (-5), format_03X (-255), str (-12)) = ("-05", "-FF", "-12")%string.
Proof. vm_compute. reflexivity. Qed.

(** A drive that fails in the middle of [enumerate]: its handle is released,
    the exception leaves the loop, and the second drive is never opened. *)
Example enumerate_flaky :
  enumerate_command flaky []
  = (Raised (DeviceError "I/O failure"),
     [Enter sda; GetAttr sda "path"; GetAttr sda "model";
      GetAttr sda "serial"; Exit sda]).
Proof. vm_compute. reflexivity. Qed.

(** A SCSI command that fails: the handle is released on the way out. *)
Example debug_flaky :
  debug_command flaky "/dev/sda" "thresholds" "raw" []
  = (Raised (DeviceError "I/O failure"),
     [Enter sda; GetAttr sda "inquiry"; GetAttr sda "identify";
      GetAttr sda "smart"; GetAttr sda "smart_thresholds";
      Call sda smart_thresholds; Exit sda]).
Proof. vm_compute. reflexivity. Qed.

(** A trace that reads a device after its handle was released breaks the
    discipline. *)
Example read_after_exit :
  scoped None [Enter sda; Exit sda; GetAttr sda "model"] = None.
Proof. reflexivity. Qed.

(** The flags word 0x0033 of the first sample attribute, field by field. *)
Example entry_bitfields :
  (fun vs => (vs !! 1%nat, vs !! 2%nat, vs !! 3%nat))
    <$> (match Codec.decode Codec.attribute_entry
                 (take 12 (drop 2 Codec.small_table_bytes)) with
         | inr x => Some (Codec.values x)
         | inl _ => None
         end)
  = Some (Some ("pre_fail"%string, Codec.IntValue 1),
          Some ("online"%string, Codec.IntValue 1),
          Some ("flags"%string, Codec.IntValue 12)).
Proof. vm_compute. reflexivity. Qed.

Example printable_samples :
  map printable
      [Samples.page; Samples.signed; Samples.labelled; Samples.mixed;
       Samples.outer]
  = [true; true; false; false; false].
Proof. reflexivity. Qed.

(** A 13-bit field in two bytes: the description is valid, the field is read
    without the three padding bits, and encoding gives both bytes back. *)
Example padded_word_round_trip :
  Codec.valid Codec.padded_word = true
  /\ match Codec.decode Codec.padded_word [xff; xbf]%byte with
     | inr x => Some (Codec.values x, Codec.encode x)
     | inl _ => None
     end
     = Some ([("x"%string, Codec.IntValue 8191)], [xff; xbf]%byte).
Proof. vm_compute. split; reflexivity. Qed.

End Worked.

(** * Further properties *)

(** ** More about [print_structure] *)

Lemma field_rows_ext (attrs : string -> value) (i j offset : Z)
    (fs : list field) :
  (forall name, value_cell (attrs name) i = value_cell (attrs name) j) ->
  field_rows attrs i offset fs = field_rows attrs j offset fs.
Proof.
  intros Hcell. revert offset.
  induction fs as [|f fs IH]; intros offset; cbn [field_rows]; [done|].
  unfold field_row. by rewrite Hcell, IH.
Qed.

(** X1. The [indent] argument has no effect: [print_structure] returns the
    same renderable for every indent, however deep structures are nested. *)
Theorem print_structure_ignores_indent (s : Structure) (i j : Z) :
  print_structure s i = print_structure s j.
Proof.
  revert i j.
  induction s
    using Structure_mut
    with (P := fun v => forall i j, value_cell v i = value_cell v j);
    intros i j; try reflexivity.
  - cbn [value_cell]. by rewrite (IHs (i + 2) (j + 2)).
  - rewrite !print_structure_unfold. cbn [fields_of].
    rewrite (field_rows_ext _ i j); [reflexivity|].
    intros name. cbn [getattr]. auto.
Qed.


Lemma hex_pair_format (b : byte) :
  exists c1 c2,
    format_02X (int_of_byte b) = String c1 (String c2 EmptyString)
    /\ hex_pair c1 c2 = Some b
    /\ Ascii.eqb c1 " " = false.
Proof. destruct b; do 2 eexists; (split; [reflexivity|split; reflexivity]). Qed.

(** X2. The text of the "Hex" column loses nothing: read back as pairs of
    hexadecimal digits separated by single spaces, the text of a row gives
    exactly the bytes of that row. *)
Theorem hex_cell_reads_back (chunk : list byte) :
  read_hex_cell (hex_cell chunk) = Some chunk.
Proof.
  unfold hex_cell, join.
  induction chunk as [|b chunk IH]; [reflexivity|].
  destruct (hex_pair_format b) as (c1 & c2 & Hb & Hpair & _).
  cbn [map String.concat]. rewrite Hb.
  destruct chunk as [|b' chunk].
  - cbn. by rewrite Hpair.
  - cbn [map] in *.
    destruct (hex_pair_format b') as (d1 & d2 & Hb' & _ & _).
    change (String c1 (String c2 "") +:+ " " +:+ ?s)
      with (String c1 (String c2 (String " " s))).
    cbn [read_hex_cell]. rewrite Hpair. cbn [Ascii.eqb Bool.eqb].
    change (Ascii.eqb " " " ") with true. cbv iota.
    rewrite IH.
    destruct (String.concat " " _) eqn:E; [|reflexivity].
    exfalso. revert E. cbn [String.concat]. rewrite Hb'.
    destruct chunk; discriminate.
Qed.

Lemma string_of_chars_length (cs : list ascii) :
  String.length (string_of_chars cs) = length cs.
Proof. induction cs; simpl; auto. Qed.

Lemma string_forallb_of_chars (p : ascii -> bool) (cs : list ascii) :
  string_forallb p (string_of_chars cs) = forallb p cs.
Proof. induction cs as [|c cs IH]; simpl; [done|]. by rewrite IH. Qed.

(** X3. The text of the "ASCII" column has exactly one character per byte of
    the row, and every one of them is a printable ASCII character (code 32
    to 126): control and high bytes never reach the terminal. *)
Theorem ascii_cell_printable (chunk : list byte) :
  String.length (ascii_cell chunk) = length chunk
  /\ string_forallb
       (fun c => bool_decide (32 <= N_of_ascii c <= 126)%N)
       (ascii_cell chunk) = true.
Proof.
  unfold ascii_cell. split.
  - by rewrite string_of_chars_length, length_map.
  - rewrite string_forallb_of_chars.
    induction chunk as [|b chunk IH]; [reflexivity|].
    cbn [map forallb]. rewrite IH, andb_true_r.
    destruct b; reflexivity.
Qed.

(** ** More about the commands *)

Section CliMore.
Import Cli CliReading CliBlocks.
Local Open Scope cli_scope.

Variable env : Env.

Lemma shown_app (t1 t2 : list event) : shown (t1 ++ t2) = shown t1 ++ shown t2.
Proof. apply List.filter_app. Qed.

Lemma enumerate_command_eq (t : list event) :
  enumerate_command env t
  = def_ (table <- for_ (get_all_devices env) (enumerate_visit env)
                     (mkTable true false SIMPLE None None
                        [column "Path" (Some "magenta") "left";
                         column "Model" (Some "green") "left";
                         column "Serial" (Some "blue") "left";
                         column "Temperature" None "left"] []) ;;
          emit (ConsolePrint (OfTable table))) t.
Proof. reflexivity. Qed.

Lemma enumerate_loop_answers (mf sf : Device -> string) (cf : Device -> Z)
    (ds : list Device) (table : Table) (t : list event) :
  (forall t' d, d ∈ ds -> enter env t' d = None) ->
  (forall t' d, d ∈ ds -> model env t' d = inr (mf d)) ->
  (forall t' d, d ∈ ds -> serial env t' d = inr (sf d)) ->
  (forall t' d, d ∈ ds -> temperature env t' d = inr (cf d)) ->
  for_ ds (enumerate_visit env) table t
  = (Normal (mkTable (show_header table) (show_lines table) (box table)
                     (title table) (title_style table) (columns table)
                     (rows table
                      ++ map (fun d => device_row (path d) (mf d) (sf d) (cf d))
                             ds)),
     t ++ flat_map device_visit ds).
Proof.
  revert table t.
  induction ds as [|d ds IH]; intros table t Henter Hmodel Hserial Htemp.
  - cbn. unfold ret. rewrite !app_nil_r. by destruct table.
  - cbn [for_ map flat_map]. unfold bind at 1.
    assert (Hd : d ∈ d :: ds) by apply list_elem_of_here.
    unfold enumerate_visit at 1, with_, bind, access, ret.
    rewrite Henter, Hmodel, Hserial, Htemp by exact Hd.
    rewrite IH by (intros; first [apply Henter | apply Hmodel
                                 | apply Hserial | apply Htemp];
                   by apply list_elem_of_further).
    cbn. rewrite <- !app_assoc. reflexivity.
Qed.

(** X4. When every device opens and answers, [enumerate_command] visits the
    devices in the order [get_all_devices] yields them, reading path, model,
    serial and temperature of each once inside its [with] block, and then
    prints one table with one row per device, in that order. *)
Theorem enumerate_command_rows
    (mf sf : Device -> string) (cf : Device -> Z) (t : list event) :
  (forall t' d, d ∈ get_all_devices env -> enter env t' d = None) ->
  (forall t' d, d ∈ get_all_devices env -> model env t' d = inr (mf d)) ->
  (forall t' d, d ∈ get_all_devices env -> serial env t' d = inr (sf d)) ->
  (forall t' d, d ∈ get_all_devices env -> temperature env t' d = inr (cf d)) ->
  exists table,
    enumerate_command env t
    = (Normal tt,
       t ++ flat_map device_visit (get_all_devices env)
         ++ [ConsolePrint (OfTable table)])
    /\ map header (columns table)
       = ["Path"; "Model"; "Serial"; "Temperature"]%string
    /\ rows table
       = map (fun d => [Text (path d); Text (mf d); Text (sf d);
                        Text (str (cf d))])
             (get_all_devices env).
Proof.
  intros Henter Hmodel Hserial Htemp.
  rewrite enumerate_command_eq. unfold def_, bind.
  rewrite (enumerate_loop_answers mf sf cf) by assumption.
  unfold emit. rewrite <- app_assoc.
  eexists. split; [reflexivity|]. split; reflexivity.
Qed.






(** X7. When the device answers, the table [details_command] prints has no
    header and exactly four rows: "Model Number", "Serial Number" and
    "Temperature" with the model, the serial and the temperature followed by
    the degree sign and C, then a row with an empty key that holds the SMART
    attribute table. *)
Theorem details_command_summary_rows
    (path : string) (device : Device) (m s : string) (c : Z)
    (entries : list (Z * SmartEntry)) (t : list event) :
  get_device env path = inr device ->
  enter env t device = None ->
  (forall t', model env t' device = inr m) ->
  (forall t', serial env t' device = inr s) ->
  (forall t', temperature env t' device = inr c) ->
  (forall t', smart_table env t' device = inr entries) ->
  exists details attributes,
    shown (snd (details_command env path t))
    = shown t ++ [ConsolePrint (OfTable details)]
    /\ show_header details = false
    /\ map header (columns details) = ["Key"; "Value"]%string
    /\ rows details
       = [[Text "Model Number"; Text m];
          [Text "Serial Number"; Text s];
          [Text "Temperature"; Text (str c +:+ degrees_C)];
          [Text ""; OfTable attributes]].
Proof.
  intros Hget Henter Hmodel Hserial Htemp Htable.
  unfold details_command, def_, bind at 1, lift. rewrite Hget.
  unfold bind at 1, with_. rewrite Henter.
  unfold bind at 1, access at 1. rewrite Hmodel.
  unfold bind at 1, access at 1. rewrite Hserial.
  unfold bind at 1, access at 1. rewrite Htemp.
  unfold bind at 1, access at 1. rewrite Htable.
  unfold bind at 1. rewrite for_add_row. unfold ret, emit. cbn [fst snd].
  rewrite !shown_app. cbn. rewrite ?app_nil_r.
  do 2 eexists. split; [reflexivity|]. repeat split.
Qed.

(** X8. When the device cannot be opened ([get_device] raises, or
    [__enter__] does), [details_command] and [debug_command] raise that
    exception and have done nothing else: no property is read, no command is
    sent, nothing is shown and no [__exit__] is called. *)
Theorem commands_cannot_open
    (path command display : string) (e : exn) (t : list event) :
  get_device env path = inl e
  \/ (exists device,
         get_device env path = inr device /\ enter env t device = Some e) ->
  details_command env path t = (Raised e, t)
  /\ debug_command env path command display t = (Raised e, t).
Proof.
  intros Hfail. split.
  - destruct Hfail as [Hget|(device & Hget & Henter)];
      unfold details_command, def_, bind, lift, with_; rewrite Hget;
      [done | by rewrite Henter].
  - destruct Hfail as [Hget|(device & Hget & Henter)];
      unfold debug_command, def_, bind, lift, with_; rewrite Hget;
      [done | by rewrite Henter].
Qed.

(** X9. When the command is one the device implements and the device
    answers, [debug_command] sends it once and shows the answer according to
    [display]: "pretty" prints what [print_structure] returns for the
    structure on the console, and when [print_structure] raises (a field on
    which [int(value)] raises) the command raises that exception and shows
    nothing; "raw" writes the bytes of the structure to standard output,
    "bytearray" prints [embed_bytes] of its bytes, and any other value shows
    nothing although the command was sent.  The structure is the first item
    of the answer of a SCSI device and the whole answer of an NVMe device. *)
Theorem debug_command_display
    (path command display : string) (device : Device) (m : Method)
    (structure : Structure) (t : list event) :
  get_device env path = inr device ->
  enter env t device = None ->
  operation (device_class device) command = Some m ->
  (device_class device = SCSIDevice /\
   exists rest, forall t', scsi_command env t' device m = inr (structure, rest))
  \/ (device_class device = NVMEDevice /\
      forall t', nvme_command env t' device m = inr structure) ->
  sent (snd (debug_command env path command display t))
  = sent t ++ [(device, m)]
  /\ (if String.eqb display "pretty" then
        match print_structure structure 0 with
        | inr rendered =>
            fst (debug_command env path command display t) = Normal tt
            /\ shown (snd (debug_command env path command display t))
               = shown t ++ [ConsolePrint rendered]
        | inl e =>
            fst (debug_command env path command display t) = Raised e
            /\ shown (snd (debug_command env path command display t))
               = shown t
        end
      else
        fst (debug_command env path command display t) = Normal tt
        /\ shown (snd (debug_command env path command display t))
           = shown t
             ++ (if String.eqb display "raw" then
                   [StdoutWrite (bytes_of structure)]
                 else if String.eqb display "bytearray" then
                   [Print (embed_bytes env (bytes_of structure))]
                 else [])).
Proof.
  intros Hget Henter Hop Hanswer.
  rewrite (debug_command_run _ _ _ _ _ _ Hget Henter).
  destruct Hanswer as [[Hcls (rest & Hans)]|[Hcls Hans]];
    rewrite Hcls in *; cbv zeta; rewrite Hop, Hans; cbn [fst snd];
    unfold display_structure;
    (destruct (String.eqb display "pretty");
     [destruct (print_structure structure 0)|]);
    repeat (destruct (String.eqb display _)); cbn [fst snd];
    rewrite ?sent_app, ?shown_app; cbn;
    rewrite ?app_nil_r; split_and!; done.
Qed.


End CliMore.

Section CliLoop.
Import Cli CliReading CliBlocks.
Local Open Scope cli_scope.

Variable env : Env.

Lemma for_app_run {A S} (l1 l2 : list A) (body : S -> A -> M S) (acc : S)
    (t : list event) :
  for_ (l1 ++ l2) body acc t
  = match for_ l1 body acc t with
    | (Normal acc', t') => for_ l2 body acc' t'
    | (Returned, t') => (Returned, t')
    | (Raised e, t') => (Raised e, t')
    end.
Proof.
  revert acc t. induction l1 as [|x l1 IH]; intros acc t; [reflexivity|].
  cbn [app for_]. unfold bind.
  destruct (body acc x t) as [[acc'| |e] t']; [apply IH | done | done].
Qed.

(** X12. A device whose serial cannot be read stops [enumerate_command]: the
    devices before it have been visited and closed, the failing device is
    closed right after the failed read, the devices after it are never
    opened, the exception leaves the command and no table is printed. *)
Theorem enumerate_command_stops_at_failure
    (mf sf : Device -> string) (cf : Device -> Z)
    (before after : list Device) (d : Device) (e : exn) (t : list event) :
  get_all_devices env = before ++ d :: after ->
  (forall t' d', d' ∈ before -> enter env t' d' = None) ->
  (forall t' d', d' ∈ before -> model env t' d' = inr (mf d')) ->
  (forall t' d', d' ∈ before -> serial env t' d' = inr (sf d')) ->
  (forall t' d', d' ∈ before -> temperature env t' d' = inr (cf d')) ->
  (forall t', enter env t' d = None) ->
  (forall t', model env t' d = inr (mf d)) ->
  (forall t', serial env t' d = inl e) ->
  enumerate_command env t
  = (Raised e,
     t ++ flat_map device_visit before
       ++ [Enter d; GetAttr d "path"; GetAttr d "model"; GetAttr d "serial";
           Exit d]).
Proof.
  intros Hds Henter Hmodel Hserial Htemp Hd_enter Hd_model Hd_serial.
  rewrite enumerate_command_eq, Hds. unfold def_, bind.
  rewrite for_app_run.
  rewrite (enumerate_loop_answers env mf sf cf) by assumption.
  cbn [for_]. unfold bind.
  unfold enumerate_visit at 1, with_, bind, access.
  rewrite Hd_enter, Hd_model, Hd_serial.
  by rewrite <- !app_assoc.
Qed.

End CliLoop.

(** X11. The offsets shown inside a nested structure are relative to that
    structure: wherever the nested field lies in its parent, the cell holds
    what [print_structure] gives for the nested structure alone, and the
    first row of that table starts at offset 0.  [print_structure] returns
    on every structure whose values can be shown. *)
Theorem print_structure_nested_offsets_relative
    (s s' : Structure) (indent : Z) (i : nat) (f f0 : field)
    (rest : list field) :
  fields_of s !! i = Some f ->
  getattr s (field_name f) = VStructure s' ->
  fields_of s' = f0 :: rest ->
  (printable s = true -> exists r, print_structure s indent = inr r)
  /\ forall r,
       print_structure s indent = inr r ->
       exists inner cell0,
         printed_rows r !! i
         = Some [Text (range_label
                         (offset_of (fields_of s) i)
                         (offset_of (fields_of s) i + field_bitcount f));
                 Text (field_name f); Group [inner]]
         /\ print_structure s' (indent + 2) = inr inner
         /\ value_cell (getattr s' (field_name f0)) (indent + 2) = inr cell0
         /\ head (printed_rows inner)
            = Some [Text (range_label 0 (field_bitcount f0));
                    Text (field_name f0); cell0].
Proof.
  intros Hf Hv Hfs. split; [apply printable_returns|]. intros r Hr.
  destruct (print_structure_row _ _ _ _ _ Hr Hf) as (cell & Hc & Hrow).
  rewrite Hv in Hc. cbn [value_cell] in Hc.
  destruct (print_structure s' (indent + 2)) as [e|inner] eqn:Hinner;
    [discriminate|]. injection Hc as <-.
  assert (Hf0 : fields_of s' !! 0%nat = Some f0) by (by rewrite Hfs).
  destruct (print_structure_row _ _ _ _ _ Hinner Hf0) as (cell0 & Hc0 & Hrow0).
  exists inner, cell0. split; [exact Hrow|]. split; [reflexivity|].
  split; [exact Hc0|].
  destruct (printed_rows inner) as [|row0 rows0]; [discriminate|].
  cbn in *. injection Hrow0 as ->. reflexivity.
Qed.

(** ** The further theorems at work on the samples *)

Section MoreWitnesses.
Import Cli CliReading CliBlocks CliSamples.

Lemma print_structure_nested_offsets_relative_witness :
  exists r,
    print_structure Samples.page 0 = inr r
    /\ exists inner cell0,
         printed_rows r !! 2%nat
         = Some [Text (range_label
                         (offset_of (fields_of Samples.page) 2)
                         (offset_of (fields_of Samples.page) 2
                          + field_bitcount (Field2 "flags" Samples.Flags_t)));
                 Text "flags"; Group [inner]]
         /\ print_structure Samples.flags (0 + 2) = inr inner
         /\ value_cell (getattr Samples.flags "low") (0 + 2) = inr cell0
         /\ head (printed_rows inner)
            = Some [Text (range_label 0 (field_bitcount
                                           (Field3 "low" Samples.c_uint8 3)));
                    Text "low"; cell0].
Proof.
  destruct (print_structure_nested_offsets_relative
              Samples.page Samples.flags 0 2
              (Field2 "flags" Samples.Flags_t) (Field3 "low" Samples.c_uint8 3)
              [Field3 "high" Samples.c_uint8 5] eq_refl eq_refl eq_refl)
    as (Hreturns & Hinner).
  destruct (Hreturns eq_refl) as [r Hr].
  exists r. split; [exact Hr | exact (Hinner r Hr)].
Defined.

Lemma enumerate_command_rows_witness :
  exists table,
    enumerate_command machine []
    = (Normal tt,
       [] ++ flat_map device_visit (get_all_devices machine)
          ++ [ConsolePrint (OfTable table)])
    /\ map header (columns table)
       = ["Path"; "Model"; "Serial"; "Temperature"]%string
    /\ rows table
       = map (fun d => [Text (path d); Text ("Model of " +:+ path d);
                        Text ("Serial of " +:+ path d); Text (str 36)])
             (get_all_devices machine).
Proof.
  exact (enumerate_command_rows machine
           (fun d => "Model of " +:+ path d)
           (fun d => "Serial of " +:+ path d) (fun _ => 36) []
           (fun _ _ _ => eq_refl) (fun _ _ _ => eq_refl)
           (fun _ _ _ => eq_refl) (fun _ _ _ => eq_refl)).
Defined.

Lemma details_command_summary_rows_witness :
  exists details attributes,
    shown (snd (details_command machine "/dev/nvme0" []))
    = shown [] ++ [ConsolePrint (OfTable details)]
    /\ show_header details = false
    /\ map header (columns details) = ["Key"; "Value"]%string
    /\ rows details
       = [[Text "Model Number"; Text "Model of /dev/nvme0"];
          [Text "Serial Number"; Text "Serial of /dev/nvme0"];
          [Text "Temperature"; Text (str 36 +:+ degrees_C)];
          [Text ""; OfTable attributes]].
Proof.
  exact (details_command_summary_rows machine "/dev/nvme0" nvme0
           "Model of /dev/nvme0" "Serial of /dev/nvme0" 36 attributes0 []
           eq_refl eq_refl (fun _ => eq_refl) (fun _ => eq_refl)
           (fun _ => eq_refl) (fun _ => eq_refl)).
Defined.

Lemma commands_cannot_open_witness :
  details_command machine "/dev/null" []
  = (Raised (DeviceError "no such device"), [])
  /\ debug_command machine "/dev/null" "smart" "pretty" []
     = (Raised (DeviceError "no such device"), []).
Proof.
  exact (commands_cannot_open machine "/dev/null" "smart" "pretty"
           (DeviceError "no such device") [] (or_introl eq_refl)).
Defined.

Lemma debug_command_display_witness :
  sent (snd (debug_command machine "/dev/sda" "thresholds" "pretty" []))
  = sent [] ++ [(sda, smart_thresholds)]
  /\ (if String.eqb "pretty" "pretty" then
        match print_structure Samples.page 0 with
        | inr rendered =>
            fst (debug_command machine "/dev/sda" "thresholds" "pretty" [])
            = Normal tt
            /\ shown (snd (debug_command machine "/dev/sda" "thresholds"
                             "pretty" []))
               = shown [] ++ [ConsolePrint rendered]
        | inl e =>
            fst (debug_command machine "/dev/sda" "thresholds" "pretty" [])
            = Raised e
            /\ shown (snd (debug_command machine "/dev/sda" "thresholds"
                             "pretty" []))
               = shown []
        end
      else
        fst (debug_command machine "/dev/sda" "thresholds" "pretty" [])
        = Normal tt
        /\ shown (snd (debug_command machine "/dev/sda" "thresholds"
                         "pretty" []))
           = shown []
             ++ (if String.eqb "pretty" "raw" then
                   [StdoutWrite (bytes_of Samples.page)]
                 else if String.eqb "pretty" "bytearray" then
                   [Print (embed_bytes machine (bytes_of Samples.page))]
                 else [])).
Proof.
  apply (debug_command_display machine "/dev/sda" "thresholds" "pretty" sda
           smart_thresholds Samples.page [] eq_refl eq_refl eq_refl).
  left. split; [reflexivity|]. exists []. intros t'. reflexivity.
Defined.

Lemma enumerate_command_stops_at_failure_witness :
  enumerate_command CliSamples2.half []
  = (Raised (DeviceError "I/O failure"),
     [] ++ flat_map device_visit [sda]
        ++ [Enter nvme0; GetAttr nvme0 "path"; GetAttr nvme0 "model";
            GetAttr nvme0 "serial"; Exit nvme0]).
Proof.
  apply (enumerate_command_stops_at_failure CliSamples2.half
           (fun d => "Model of " +:+ path d)
           (fun d => "Serial of " +:+ path d) (fun _ => 36)
           [sda] [loop0] nvme0 (DeviceError "I/O failure") [] eq_refl);
    try (intros; reflexivity).
  intros t' d' Hd'. apply list_elem_of_singleton in Hd' as ->. reflexivity.
Defined.

End MoreWitnesses.
